(** * My Machine Bot: the tool-invocation protocol of [chat.py]

    A shallow embedding of the tool-calling core of the bot
    ([extract_tool_calls], [execute_tool], [format_tool_descriptions] and
    [chat] of [chat.py], with the registry [TOOLS] of [system_tools.py])
    and the properties its specification states about it.

    Python strings are sequences of Unicode code points; the regular
    expression of the scanner is interpreted by a small backtracking
    matcher that follows the opcodes Python's [re] module compiles the
    pattern to. *)

From Stdlib Require Import String Ascii List Arith NArith ZArith Lia Bool.
From Stdlib Require Import DecimalString Sorting Permutation.
From Equations Require Import Equations.
Import ListNotations.

(** ** Strings *)

(** A Python [str]: a sequence of code points. *)
Definition char := N.
Definition str := list char.

(** An ASCII literal of the source as a [str]. *)
Definition lit (x : string) : str :=
  map N_of_ascii (list_ascii_of_string x).
Arguments lit x%_string : simpl never.

(** [sep.join(parts)]. *)
Fixpoint join (sep : str) (parts : list str) : str :=
  match parts with
  | [] => []
  | [p] => p
  | p :: ps => p ++ sep ++ join sep ps
  end.

(** Equality of strings, code point by code point. *)
Fixpoint str_eqb (a b : str) : bool :=
  match a, b with
  | [], [] => true
  | x :: a', y :: b' => N.eqb x y && str_eqb a' b'
  | _, _ => false
  end.

(** The line feed. *)
Definition nl : str := [10%N].

(** ** Character categories of [re]

    For a [str] pattern, [\s] is [Py_UNICODE_ISSPACE] and [\w] is
    [Py_UNICODE_ISALNUM] or the underscore. *)

Definition in_range (lo hi c : N) : bool := ((lo <=? c) && (c <=? hi))%N.

Definition Py_UNICODE_ISSPACE (c : char) : bool :=
  in_range 9 13 c || in_range 28 32 c || (c =? 133)%N || (c =? 160)%N
  || (c =? 5760)%N || in_range 8192 8202 c || in_range 8232 8233 c
  || (c =? 8239)%N || (c =? 8287)%N || (c =? 12288)%N.

Definition ascii_alnum (c : char) : bool :=
  in_range 48 57 c || in_range 65 90 c || in_range 97 122 c.

(** ** The collaborators of the protocol *)

(** A raised Python exception: whether it is an instance of
    [Exception] (an error, which [except Exception] catches) or only of
    [BaseException] (an interrupt or an exit request, which it lets
    through), and its text [str(e)]. *)
Record exn := { is_Exception : bool; exn_str : str }.

(** A call returns a value or raises. *)
Inductive outcome (A : Type) :=
| Return (a : A)
| Raise (e : exn).
Arguments Return {A} a.
Arguments Raise {A} e.

Inductive Role := system | user | assistant.

(** A message of the conversation: [{"role": ..., "content": ...}]. *)
Record Turn := { role : Role; content : str }.

(** What lies outside the two source files: the host that the tool
    functions of system_tools.py query through psutil, platform and
    socket, [json.dumps], and the model backend behind [ollama.chat]. A
    tool function is modelled by its effect on the host, not by its
    body. *)
Record Platform := {
  machine : Type;
  json : Type;
  get_system_info : machine -> outcome json * machine;
  get_cpu_info : machine -> outcome json * machine;
  get_memory_info : machine -> outcome json * machine;
  get_disk_info : machine -> outcome json * machine;
  get_network_info : machine -> outcome json * machine;
  get_process_info : machine -> outcome json * machine;
  get_battery_info : machine -> outcome json * machine;
  get_uptime : machine -> outcome json * machine;
  (** [json.dumps(value, indent=n)] *)
  json_dumps : json -> nat -> outcome str;
  (** [ollama.chat(model=..., messages=...)["message"]["content"]] *)
  ollama_chat : str -> list Turn -> machine -> outcome str * machine
}.

(** What a run does to the outside, in order. *)
Inductive event :=
| BackendCall (model : str) (messages : list Turn)
| ToolCall (name : str)
| ConsolePrint (line : str).

(** The message lists of the backend calls of a trace. *)
Fixpoint backend_calls (t : list event) : list (list Turn) :=
  match t with
  | [] => []
  | BackendCall _ msgs :: t' => msgs :: backend_calls t'
  | _ :: t' => backend_calls t'
  end.

(** The state of a session: the history list that [main] owns and
    passes to [chat] by reference, the host, and the trace of what was
    done so far. *)
Record state (P : Platform) := {
  history : list Turn;
  host : machine P;
  trace : list event
}.
Arguments history {P} s.
Arguments host {P} s.
Arguments trace {P} s.
Arguments Build_state {P} history host trace.

(** What [main] needs beyond the platform: the listing of the
    installed models, the pull of one, the test [isinstance(e,
    KeyboardInterrupt)] that its second handler makes, and
    [str.lower] on a string that is not all ASCII. The listing is the
    value under the key "models", when there is one, and each entry of
    it the value under its key "name", when it has one. *)
Record Shell (P : Platform) := {
  ollama_list : machine P -> outcome (option (list (option str))) * machine P;
  ollama_pull : str -> machine P -> outcome unit * machine P;
  is_KeyboardInterrupt : exn -> bool;
  unicode_lower : str -> str
}.
Arguments ollama_list {P} s.
Arguments ollama_pull {P} s.
Arguments is_KeyboardInterrupt {P} s.
Arguments unicode_lower {P} s.

(** How a session ends: the backend could not be reached at startup,
    the user left with a quit word, the user interrupted, or the script
    of inputs ran out while the loop was asking for the next one. *)
Inductive ending := Unavailable | Left | Interrupted | Waiting.

(** What the body of the loop tells the loop. *)
Inductive control := Break (e : ending) | Continue.

(** ** system_tools.py

    The bodies of three tool functions, over the readings they take
    from psutil, datetime and the interpreter. A float stays abstract:
    the source rounds and compares floats and never looks inside
    one. *)
Module system_tools.

(** The class of a raised exception, as far as the handlers of the
    file tell classes apart (a zombie process counts as one that is
    gone, of which its class is a subclass). *)
Inductive exc_class := PermissionError | NoSuchProcess | AccessDenied | OtherError.

(** A reading returns a value or raises an exception of some class. *)
Inductive attempt (A : Type) :=
| Got (a : A)
| Failed (c : exc_class) (e : exn).
Arguments Got {A} a.
Arguments Failed {A} c e.

(** A Python number: an [int] or a [float]. *)
Inductive number (F : Type) :=
| Int (z : Z)
| Float (f : F).
Arguments Int {F} z.
Arguments Float {F} f.

(** The structured data a tool returns; a dictionary keeps the order
    in which its keys were inserted. *)
#[warnings="-register-all"] Inductive value (F : Type) :=
| VNone
| VBool (b : bool)
| VNum (n : number F)
| VStr (s : str)
| VList (l : list (value F))
| VDict (d : list (str * value F)).
Arguments VNone {F}.
Arguments VBool {F} b.
Arguments VNum {F} n.
Arguments VStr {F} s.
Arguments VList {F} l.
Arguments VDict {F} d.

(** A [timedelta]; the library keeps [seconds] from 0 to 86399. *)
Record timedelta := { days : Z; seconds : Z; microseconds : Z }.

(** An entry of [psutil.disk_partitions()] and a result of
    [psutil.disk_usage(path)]. *)
Record partition := { device : str; mountpoint : str; fstype : str }.
Record usage (F : Type) := { total : Z; used : Z; free : Z; percent : F }.
Arguments total {F} u.
Arguments used {F} u.
Arguments free {F} u.
Arguments percent {F} u.

(** The attribute [info] of a process: the four values asked for, a
    name or a percentage being [None] when psutil could not tell. *)
Record pinfo (F : Type) := {
  pid : Z;
  name : option str;
  memory_percent : option F;
  cpu_percent : option F
}.
Arguments pid {F} p.
Arguments name {F} p.
Arguments memory_percent {F} p.
Arguments cpu_percent {F} p.

(** What the three functions read and compute with. *)
Record System := {
  world : Type;
  float : Type;
  (** [x < y], [bool(x)], [round(x, ndigits)] and [a / b] of two ints *)
  py_lt : number float -> number float -> bool;
  py_bool : float -> bool;
  py_round : float -> Z -> float;
  py_truediv : Z -> Z -> float;
  datetime : Type;
  (** [psutil.boot_time()], [datetime.fromtimestamp(t)],
      [datetime.now()], [a - b] and [d.strftime(format)] *)
  boot_time : world -> attempt float * world;
  fromtimestamp : float -> attempt datetime;
  now : world -> attempt datetime * world;
  minus : datetime -> datetime -> timedelta;
  strftime : datetime -> str -> str;
  (** [psutil.disk_partitions()] and [psutil.disk_usage(path)] *)
  disk_partitions : world -> attempt (list partition) * world;
  disk_usage : str -> world -> attempt (usage float) * world;
  (** [psutil.process_iter(attrs)], as the list of what reading
      [proc.info] gives for each process *)
  process_iter : world -> attempt (list (attempt (pinfo float))) * world
}.

(** [str(n)] of an int. *)
Definition dec (n : Z) : str := lit (NilZero.string_of_int (Z.to_int n)).

(** [divmod(a, b)] of two ints. *)
Definition divmod (a b : Z) : Z * Z := ((a / b)%Z, (a mod b)%Z).

(** The text of the uptime, from the [timedelta]. *)
Definition uptime_text (uptime : timedelta) : str :=
  let days := days uptime in
  let (hours, remainder) := divmod (seconds uptime) 3600 in
  let (minutes, seconds) := divmod remainder 60 in
  dec days ++ lit "d " ++ dec hours ++ lit "h " ++ dec minutes ++ lit "m "
  ++ dec seconds ++ lit "s".

Definition get_uptime (S : System) (w : world S)
  : attempt (value (float S)) * world S :=
  match boot_time S w with
  | (Failed c e, w1) => (Failed c e, w1)
  | (Got t, w1) =>
      match fromtimestamp S t with
      | Failed c e => (Failed c e, w1)
      | Got boot =>
          match now S w1 with
          | (Failed c e, w2) => (Failed c e, w2)
          | (Got now_, w2) =>
              let uptime := minus S now_ boot in
              (Got (VDict
                      [(lit "boot_time",
                        VStr (strftime S boot (lit "%Y-%m-%d %H:%M:%S")));
                       (lit "uptime", VStr (uptime_text uptime))]),
               w2)
          end
      end
  end.

(** [round(x / (1024**3), 2)] of an int [x]. *)
Definition gigabytes (S : System) (x : Z) : value (float S) :=
  VNum (Float (py_round S (py_truediv S x (1024 ^ 3)%Z) 2)).

(** The dictionary appended for a partition whose usage was read. *)
Definition partition_entry (S : System) (p : partition) (u : usage (float S))
  : value (float S) :=
  VDict [(lit "device", VStr (device p));
         (lit "mountpoint", VStr (mountpoint p));
         (lit "filesystem", VStr (fstype p));
         (lit "total_gb", gigabytes S (total u));
         (lit "used_gb", gigabytes S (used u));
         (lit "free_gb", gigabytes S (free u));
         (lit "usage_percent", VNum (Float (percent u)))].

(** The loop over the partitions, with its accumulator. *)
Fixpoint disk_loop (S : System) (todo : list partition)
    (partitions : list (value (float S))) (w : world S)
  : attempt (list (value (float S))) * world S :=
  match todo with
  | [] => (Got partitions, w)
  | p :: rest =>
      match disk_usage S (mountpoint p) w with
      | (Got u, w1) => disk_loop S rest (partitions ++ [partition_entry S p u]) w1
      | (Failed PermissionError _, w1) => disk_loop S rest partitions w1
      | (Failed c e, w1) => (Failed c e, w1)
      end
  end.

Definition get_disk_info (S : System) (w : world S)
  : attempt (value (float S)) * world S :=
  match disk_partitions S w with
  | (Failed c e, w0) => (Failed c e, w0)
  | (Got todo, w0) =>
      match disk_loop S todo [] w0 with
      | (Got partitions, w1) => (Got (VDict [(lit "partitions", VList partitions)]), w1)
      | (Failed c e, w1) => (Failed c e, w1)
      end
  end.

(** The dictionary appended for a process, with its four keys. *)
Record row (F : Type) := {
  row_pid : Z;
  row_name : option str;
  row_memory : number F;
  row_cpu : number F
}.
Arguments row_pid {F} r.
Arguments row_name {F} r.
Arguments row_memory {F} r.
Arguments row_cpu {F} r.

(** [round(x, 2) if x else 0] *)
Definition rounded (S : System) (x : option (float S)) : number (float S) :=
  match x with
  | Some f => if py_bool S f then Float (py_round S f 2) else Int 0
  | None => Int 0
  end.

Definition row_of (S : System) (p : pinfo (float S)) : row (float S) :=
  {| row_pid := pid p;
     row_name := name p;
     row_memory := rounded S (memory_percent p);
     row_cpu := rounded S (cpu_percent p) |}.

Definition row_value {F : Type} (r : row F) : value F :=
  VDict [(lit "pid", VNum (Int (row_pid r)));
         (lit "name", match row_name r with Some n => VStr n | None => VNone end);
         (lit "memory_percent", VNum (row_memory r));
         (lit "cpu_percent", VNum (row_cpu r))].

(** The loop over the processes, with its accumulator. *)
Fixpoint process_loop (S : System) (todo : list (attempt (pinfo (float S))))
    (processes : list (row (float S))) : attempt (list (row (float S))) :=
  match todo with
  | [] => Got processes
  | Got p :: rest => process_loop S rest (processes ++ [row_of S p])
  | Failed NoSuchProcess _ :: rest => process_loop S rest processes
  | Failed AccessDenied _ :: rest => process_loop S rest processes
  | Failed c e :: _ => Failed c e
  end.

(** [list.sort(key=..., reverse=True)]: the list is reversed, sorted
    upwards by a stable sort that compares keys with [<], and reversed
    again, so that rows of equal key keep their order. *)
Fixpoint insert_by {A K : Type} (lt : K -> K -> bool) (key : A -> K)
    (x : A) (l : list A) : list A :=
  match l with
  | [] => [x]
  | y :: l' =>
      if lt (key y) (key x) then y :: insert_by lt key x l' else x :: y :: l'
  end.

Fixpoint sort_by {A K : Type} (lt : K -> K -> bool) (key : A -> K)
    (l : list A) : list A :=
  match l with
  | [] => []
  | x :: l' => insert_by lt key x (sort_by lt key l')
  end.

Definition sort_reverse {A K : Type} (lt : K -> K -> bool) (key : A -> K)
    (l : list A) : list A :=
  rev (sort_by lt key (rev l)).

(** [l[:limit]] *)
Definition slice_to {A : Type} (limit : Z) (l : list A) : list A :=
  if (limit <? 0)%Z then firstn (length l - Z.to_nat (- limit)) l
  else firstn (Z.to_nat limit) l.

Definition get_process_info (S : System) (limit : Z) (w : world S)
  : attempt (value (float S)) * world S :=
  match process_iter S w with
  | (Failed c e, w1) => (Failed c e, w1)
  | (Got todo, w1) =>
      match process_loop S todo [] with
      | Failed c e => (Failed c e, w1)
      | Got processes =>
          let sorted := sort_reverse (py_lt S) row_memory processes in
          (Got (VDict [(lit "top_processes_by_memory",
                        VList (map row_value (slice_to limit sorted)))]),
           w1)
      end
  end.

(** The processes whose [info] could be read. *)
Fixpoint readable {A : Type} (todo : list (attempt A)) : list A :=
  match todo with
  | [] => []
  | Got a :: rest => a :: readable rest
  | Failed _ _ :: rest => readable rest
  end.

(** Whether a failure ends the loop over the processes. *)
Definition fatal {A : Type} (a : attempt A) : bool :=
  match a with
  | Got _ | Failed NoSuchProcess _ | Failed AccessDenied _ => false
  | Failed _ _ => true
  end.

(** [disk_scan S todo w entries w']: reading the usage of the
    partitions [todo] one after the other from [w], each reading
    succeeds or is denied; [entries] are the entries of those read and
    [w'] is the world at the end. *)
Inductive disk_scan (S : System)
  : list partition -> world S -> list (value (float S)) -> world S -> Prop :=
| scan_done w : disk_scan S [] w [] w
| scan_read p rest w u w1 entries w2 :
    disk_usage S (mountpoint p) w = (Got u, w1) ->
    disk_scan S rest w1 entries w2 ->
    disk_scan S (p :: rest) w (partition_entry S p u :: entries) w2
| scan_denied p rest w e w1 entries w2 :
    disk_usage S (mountpoint p) w = (Failed PermissionError e, w1) ->
    disk_scan S rest w1 entries w2 ->
    disk_scan S (p :: rest) w entries w2.

End system_tools.

(** ** Instances used to run the model on concrete inputs *)

(** The alphanumeric code points of the Latin-1 supplement. *)
Definition latin1_alnum (c : char) : bool :=
  (c =? 170)%N || in_range 178 179 c || (c =? 181)%N || in_range 185 186 c
  || in_range 188 190 c || in_range 192 214 c || in_range 216 246 c
  || in_range 248 255 c.


Definition io_error : exn :=
  {| is_Exception := true; exn_str := lit "sensor unavailable" |}.

Definition keyboard_interrupt : exn :=
  {| is_Exception := false; exn_str := [] |}.

(** A scripted platform. The host is a counter of the queries made;
    the memory tool fails with an error, the battery tool is
    interrupted, the others return the counter; the backend asks for
    tools when the conversation holds a single turn, and answers in
    prose otherwise. *)
Definition scripted_reply (messages : list Turn) : str :=
  match messages with
  | [_; _] => lit "Let me look. [TOOL: get_cpu_info] and [TOOL: get_memory_info], then [TOOL: defrag]"
  | [_; _; _; _] => lit "Your machine is fine."
  | _ => lit "Hello! Ask me about [TOOL get_cpu_info."
  end.

Definition scripted : Platform := {|
  machine := nat;
  json := nat;
  get_system_info := fun h => (Return h, S h);
  get_cpu_info := fun h => (Return h, S h);
  get_memory_info := fun h => (Raise io_error, S h);
  get_disk_info := fun h => (Return h, S h);
  get_network_info := fun h => (Return h, S h);
  get_process_info := fun h => (Return h, S h);
  get_battery_info := fun h => (Raise keyboard_interrupt, S h);
  get_uptime := fun h => (Return h, S h);
  json_dumps := fun v indent => Return (repeat 32%N indent ++ repeat 49%N v);
  ollama_chat := fun _ messages h => (Return (scripted_reply messages), S h)
|}.

(** A session of the scripted platform at its start, and one after a
    first exchange. *)
Definition fresh : state scripted :=
  @Build_state scripted [] 0 [].

Definition resumed : state scripted :=
  @Build_state scripted
    [ {| role := user; content := lit "hello" |};
      {| role := assistant; content := lit "Hello! Ask me about [TOOL get_cpu_info." |} ]
    1 [].

(** A shell for the scripted platform: two models installed, nothing
    to pull, interrupts are what is no error, no letters beyond ASCII. *)
Definition scripted_shell : Shell scripted :=
  Build_Shell scripted
    (fun h => (Return (Some [Some (lit "mistral:7b"); Some (lit "llama3.2:1b")]), h))
    (fun _ (h : nat) => (Return tt, S h))
    (fun e => negb (is_Exception e))
    (fun s => s).

(** A platform in trouble, scripted by the counter of the host: the
    backend is down at 0 and at 4, asks for the battery tool at 1 and
    for the CPU tool at 2, and answers in prose otherwise; the tools are
    those of the scripted platform. *)
Definition troubled_reply (h : nat) : outcome str :=
  match h with
  | 0 | 4 => Raise io_error
  | 1 => Return (lit "One moment. [TOOL: get_battery_info]")
  | 2 => Return (lit "One moment. [TOOL: get_cpu_info]")
  | _ => Return (lit "Done.")
  end.

Definition troubled : Platform := {|
  machine := nat;
  json := nat;
  get_system_info := fun h => (Return h, S h);
  get_cpu_info := fun h => (Return h, S h);
  get_memory_info := fun h => (Raise io_error, S h);
  get_disk_info := fun h => (Return h, S h);
  get_network_info := fun h => (Return h, S h);
  get_process_info := fun h => (Return h, S h);
  get_battery_info := fun h => (Raise keyboard_interrupt, S h);
  get_uptime := fun h => (Return h, S h);
  json_dumps := fun v indent => Return (repeat 32%N indent ++ repeat 49%N v);
  ollama_chat := fun _ messages h => (troubled_reply h, S h)
|}.

(** A session of the troubled platform with the host at [h]. *)
Definition troubled_at (h : nat) : state troubled := @Build_state troubled [] h [].



Definition nameless_shell : Shell scripted :=
  Build_Shell scripted
    (fun h => (Return (Some [Some (lit "mistral:7b"); None]), h))
    (fun _ (h : nat) => (Return tt, S h))
    (fun e => negb (is_Exception e))
    (fun s => s).


(** A system for the tool functions. A float is a number of
    hundredths; the world is a counter: at 0 all readings succeed or are
    denied, later ones fail. *)
Definition hundredths (n : system_tools.number Z) : Z :=
  match n with
  | system_tools.Int z => (100 * z)%Z
  | system_tools.Float f => f
  end.

Definition toy_partitions : list system_tools.partition :=
  [ {| system_tools.device := lit "/dev/sda1"; system_tools.mountpoint := lit "/";
       system_tools.fstype := lit "ext4" |};
    {| system_tools.device := lit "/dev/sda2"; system_tools.mountpoint := lit "/private";
       system_tools.fstype := lit "ext4" |};
    {| system_tools.device := lit "/dev/sdb1"; system_tools.mountpoint := lit "/data";
       system_tools.fstype := lit "xfs" |} ].

Definition toy_process (p m : Z) : system_tools.pinfo Z :=
  {| system_tools.pid := p; system_tools.name := Some (lit "worker");
     system_tools.memory_percent := Some m; system_tools.cpu_percent := None |}.

Definition toy_system : system_tools.System := {|
  system_tools.world := nat;
  system_tools.float := Z;
  system_tools.py_lt := fun a b => (hundredths a <? hundredths b)%Z;
  system_tools.py_bool := fun f => negb (f =? 0)%Z;
  system_tools.py_round := fun f _ => f;
  system_tools.py_truediv := fun a b => (100 * a / b)%Z;
  system_tools.datetime := Z;
  system_tools.boot_time := fun w => (system_tools.Got 1000%Z, w);
  system_tools.fromtimestamp := fun t => system_tools.Got t;
  system_tools.now := fun w => (system_tools.Got 94784%Z, S w);
  system_tools.minus := fun a b =>
    {| system_tools.days := ((a - b) / 86400)%Z;
       system_tools.seconds := ((a - b) mod 86400)%Z;
       system_tools.microseconds := 0%Z |};
  system_tools.strftime := fun d _ => system_tools.dec d;
  system_tools.disk_partitions := fun w => (system_tools.Got toy_partitions, w);
  system_tools.disk_usage := fun path w =>
    match w with
    | 0 =>
        if str_eqb path (lit "/private")
        then (system_tools.Failed system_tools.PermissionError io_error, w)
        else (system_tools.Got
                {| system_tools.total := (2 * 1024 ^ 3)%Z;
                   system_tools.used := (1024 ^ 3)%Z;
                   system_tools.free := (1024 ^ 3)%Z;
                   system_tools.percent := 5000%Z |}, w)
    | _ => (system_tools.Failed system_tools.OtherError io_error, w)
    end;
  system_tools.process_iter := fun w =>
    match w with
    | 0 =>
        (system_tools.Got
           [system_tools.Got (toy_process 1 250);
            system_tools.Failed system_tools.AccessDenied io_error;
            system_tools.Got (toy_process 2 0);
            system_tools.Got (toy_process 3 1275);
            system_tools.Failed system_tools.NoSuchProcess io_error;
            system_tools.Got (toy_process 4 250)], w)
    | _ =>
        (system_tools.Got
           [system_tools.Got (toy_process 1 250);
            system_tools.Failed system_tools.OtherError io_error;
            system_tools.Got (toy_process 2 0)], w)
    end
|}.

(** Comparisons of code points, for [lia]. *)
Ltac bool_lia :=
  repeat match goal with
    | H : _ && _ = true |- _ => apply andb_true_iff in H; destruct H
    | H : _ || _ = true |- _ => apply orb_true_iff in H; destruct H
    | H : (_ <=? _)%N = true |- _ => apply N.leb_le in H
    | H : (_ <? _)%N = true |- _ => apply N.ltb_lt in H
    | H : (_ <? _)%N = false |- _ => apply N.ltb_ge in H
    | H : (_ =? _)%N = true |- _ => apply N.eqb_eq in H
    end; try lia.

Section Bot.

(** The alphanumeric code points outside ASCII: a table of the Unicode
    database of the interpreter, consulted only from 128 on. *)
Variable unicode_alnum : char -> bool.

(** No code point is both alphanumeric and white space. *)
Hypothesis alnum_not_space :
  forall c, (128 <= c)%N -> unicode_alnum c = true ->
            Py_UNICODE_ISSPACE c = false.

Definition Py_UNICODE_ISALNUM (c : char) : bool :=
  if (c <? 128)%N then ascii_alnum c else unicode_alnum c.

Inductive category := CATEGORY_SPACE | CATEGORY_WORD.

Definition in_category (k : category) (c : char) : bool :=
  match k with
  | CATEGORY_SPACE => Py_UNICODE_ISSPACE c
  | CATEGORY_WORD => Py_UNICODE_ISALNUM c || (c =? 95)%N
  end.

Definition is_space := in_category CATEGORY_SPACE.
Definition is_word := in_category CATEGORY_WORD.

(** ** The matcher

    The opcodes the pattern compiles to: a literal character, a greedy
    repetition [k{lo,}] of one category, and the marks that delimit a
    capturing group (group [g] lies between marks [2g-2] and [2g-1]). *)
Inductive op :=
| LITERAL (c : char)
| REPEAT_ONE (lo : nat) (k : category)
| MARK (i : nat).

Definition marks := list (nat * nat).

Fixpoint get_mark (i : nat) (m : marks) : option nat :=
  match m with
  | [] => None
  | (j, p) :: m' => if Nat.eqb i j then Some p else get_mark i m'
  end.

(** Length of the longest prefix of [s] in category [k]. *)
Fixpoint count_run (k : category) (s : str) : nat :=
  match s with
  | c :: s' => if in_category k c then S (count_run k s') else 0
  | [] => 0
  end.

(** Greedy repetition with backtracking: try [i] characters, then
    [i-1], down to [lo]; the first success wins. *)
Fixpoint try_down {A : Type} (k : nat -> option A) (lo i : nat) : option A :=
  if Nat.ltb i lo then None
  else match k i with
       | Some r => Some r
       | None => match i with
                 | 0 => None
                 | S j => try_down k lo j
                 end
       end.

(** [sre_match code ptr s m]: match [code] against [s], the text at
    offset [ptr] of the match; the end offset and the marks on success. *)
Fixpoint sre_match (code : list op) (ptr : nat) (s : str) (m : marks)
  : option (nat * marks) :=
  match code with
  | [] => Some (ptr, m)
  | LITERAL c :: code' =>
      match s with
      | x :: s' => if N.eqb x c then sre_match code' (S ptr) s' m else None
      | [] => None
      end
  | MARK i :: code' => sre_match code' ptr s ((i, ptr) :: m)
  | REPEAT_ONE lo k :: code' =>
      try_down (fun i => sre_match code' (ptr + i) (skipn i s) m)
               lo (count_run k s)
  end.

(** Group [g] of a match that starts at the head of [text]; the empty
    string when the group took no part, as [findall] reports it. *)
Definition group (text : str) (m : marks) (g : nat) : str :=
  match get_mark (2 * g - 2) m, get_mark (2 * g - 1) m with
  | Some a, Some b => firstn (b - a) (skipn a text)
  | _, _ => []
  end.

(** [re.findall] for a pattern with one group: scan left to right, try
    a match at every position, resume after a match at its end (one
    character further when the match is empty). *)
Equations? findall (code : list op) (s : str) : list str by wf (length s) lt :=
  findall code [] with sre_match code 0 [] [] := {
    | Some (e, m) := [group [] m 1];
    | None := [] };
  findall code (c :: s') with sre_match code 0 (c :: s') [] := {
    | Some (e, m) := group (c :: s') m 1 :: findall code (skipn (Nat.pred e) s');
    | None := findall code s' }.
Proof.
  all: simpl; try rewrite length_skipn; lia.
Qed.

(** [r'\[TOOL:\s*(\w+)\]'] *)
Definition pattern : list op :=
  map LITERAL (lit "[TOOL:")
  ++ [REPEAT_ONE 0 CATEGORY_SPACE; MARK 0; REPEAT_ONE 1 CATEGORY_WORD; MARK 1;
      LITERAL 93%N].

(** [extract_tool_calls] of chat.py. *)
Definition extract_tool_calls (response : str) : list str :=
  findall pattern response.

(** ** The marker grammar, as the specification words it *)

(** The text of a marker: the opening bracket, the word TOOL, a colon,
    white space [ws], the name, the closing bracket. *)
Definition marker (ws name : str) : str :=
  lit "[TOOL:" ++ ws ++ name ++ [93%N].

Definition well_formed (ws name : str) : Prop :=
  forallb is_space ws = true /\ name <> [] /\ forallb is_word name = true.

(** [text] contains a well-formed marker. *)
Definition contains_marker (text : str) : Prop :=
  exists pre ws name post,
    text = pre ++ marker ws name ++ post /\ well_formed ws name.

(** A match at the head of [s]: its length and its group 1. *)
Definition match_at (s : str) : option (nat * str) :=
  match sre_match pattern 0 s [] with
  | Some (e, m) => Some (e, group s m 1)
  | None => None
  end.

Fixpoint strip_prefix (p s : str) : option str :=
  match p, s with
  | [], _ => Some s
  | c :: p', x :: s' => if N.eqb x c then strip_prefix p' s' else None
  | _ :: _, [] => None
  end.

(** The characters of the marker syntax: the brackets and the colon. *)
Definition punct (c : char) : Prop := c = 91%N \/ c = 93%N \/ c = 58%N.

(** The pattern after its literal prefix. *)
Definition tail_code : list op :=
  [REPEAT_ONE 0 CATEGORY_SPACE; MARK 0; REPEAT_ONE 1 CATEGORY_WORD; MARK 1;
   LITERAL 93%N].

(** ** The registry [TOOLS] of system_tools.py *)

Variable P : Platform.

Record tool := {
  function : machine P -> outcome (json P) * machine P;
  description : str
}.

(** The dictionary, in insertion order. *)
Definition TOOLS : list (str * tool) :=
  [ (lit "get_system_info",
     {| function := get_system_info P;
        description := lit "Get basic system information like OS, hostname, and processor" |});
    (lit "get_cpu_info",
     {| function := get_cpu_info P;
        description := lit "Get CPU usage, core count, and frequency information" |});
    (lit "get_memory_info",
     {| function := get_memory_info P;
        description := lit "Get RAM and swap memory usage" |});
    (lit "get_disk_info",
     {| function := get_disk_info P;
        description := lit "Get disk partition and storage usage information" |});
    (lit "get_network_info",
     {| function := get_network_info P;
        description := lit "Get network interfaces, IP addresses, and data transfer stats" |});
    (lit "get_process_info",
     {| function := get_process_info P;
        description := lit "Get top processes by memory usage" |});
    (lit "get_battery_info",
     {| function := get_battery_info P;
        description := lit "Get battery status and charge level (for laptops)" |});
    (lit "get_uptime",
     {| function := get_uptime P;
        description := lit "Get system boot time and uptime duration" |}) ].

(** The entry of a dictionary under [key], if [key in d]. *)
Fixpoint lookup {V : Type} (key : str) (d : list (str * V)) : option V :=
  match d with
  | [] => None
  | (k, v) :: d' => if str_eqb key k then Some v else lookup key d'
  end.

(** ** The monad of the operations of a session *)

(** An operation runs from a state to an outcome and a state; what it
    did to the state before raising stays done. *)
Definition M (A : Type) : Type := state P -> outcome A * state P.

Definition ret {A : Type} (a : A) : M A := fun st => (Return a, st).

Definition bind {A B : Type} (m : M A) (k : A -> M B) : M B :=
  fun st =>
    match m st with
    | (Return a, st') => k a st'
    | (Raise e, st') => (Raise e, st')
    end.

Notation "x <- m ;; k" := (bind m (fun x => k))
  (at level 61, m at next level, right associativity).
Notation "m ;; k" := (bind m (fun _ => k))
  (at level 61, right associativity).

(** [try: m  except Exception as e: handler(e)] *)
Definition try_except {A : Type} (m : M A) (handler : exn -> M A) : M A :=
  fun st =>
    match m st with
    | (Raise e, st') =>
        if is_Exception e then handler e st' else (Raise e, st')
    | r => r
    end.

(** The call of a function that has no effect. *)
Definition call {A B : Type} (f : A -> B) (x : A) : M B := ret (f x).

(** A value or an exception of a function that has no effect. *)
Definition lift {A : Type} (r : outcome A) : M A := fun st => (r, st).

Definition log (ev : event) : M unit :=
  fun st =>
    (Return tt,
     {| history := history st; host := host st; trace := trace st ++ [ev] |}).

(** [history.append(turn)] *)
Definition history_append (t : Turn) : M unit :=
  fun st =>
    (Return tt,
     {| history := history st ++ [t]; host := host st; trace := trace st |}).

Definition get_history : M (list Turn) := fun st => (Return (history st), st).

(** The call [f()] of the function of tool [name]. *)
Definition invoke (name : str) (f : machine P -> outcome (json P) * machine P)
  : M (json P) :=
  log (ToolCall name) ;;
  fun st =>
    let (r, h) := f (host st) in
    (r, {| history := history st; host := h; trace := trace st |}).

Definition console_print (line : str) : M unit := log (ConsolePrint line).

(** ** chat.py *)

Definition MODEL : str := lit "llama3.2".

(** The template [SYSTEM_PROMPT]: the text before and the text after
    its replacement field [{tools}]. *)
Definition SYSTEM_PROMPT : str * str :=
  (join nl
      [lit "You are a helpful assistant that runs locally on the user's machine. ";
       lit "You have access to tools that can retrieve information about the system you're running on.";
       [];
       lit "Available tools:";
       []],
   join nl
      [[];
       [];
       lit "When the user asks about system information, use the appropriate tool by responding with:";
       lit "[TOOL: tool_name]";
       [];
       lit "For example:";
       lit "- If asked about CPU usage, respond with [TOOL: get_cpu_info]";
       lit "- If asked about memory/RAM, respond with [TOOL: get_memory_info]";
       lit "- If asked about disk space, respond with [TOOL: get_disk_info]";
       lit "- If asked about network, respond with [TOOL: get_network_info]";
       lit "- If asked about running processes, respond with [TOOL: get_process_info]";
       lit "- If asked about battery, respond with [TOOL: get_battery_info]";
       lit "- If asked about uptime or boot time, respond with [TOOL: get_uptime]";
       lit "- If asked about general system info (OS, hostname), respond with [TOOL: get_system_info]";
       [];
       lit "After receiving tool results, explain them to the user in a friendly, clear way.";
       lit "You can use multiple tools if needed to answer complex questions.";
       []]).

Definition prompt_head : str := fst SYSTEM_PROMPT.
Definition prompt_tail : str := snd SYSTEM_PROMPT.

(** [SYSTEM_PROMPT.format(tools=tools)]: the template holds the one
    replacement field. *)
Definition SYSTEM_PROMPT_format (tools : str) : str :=
  prompt_head ++ tools ++ prompt_tail.

Definition format_tool_descriptions : str :=
  let lines :=
    map (fun '(name, info) => lit "- " ++ name ++ lit ": " ++ description info)
        TOOLS in
  join nl lines.

Definition execute_tool (tool_name : str) : M str :=
  match lookup tool_name TOOLS with
  | Some info =>
      try_except
        (result <- invoke tool_name (function info) ;;
         lift (json_dumps P result 2))
        (fun e =>
           ret (lit "Error executing " ++ tool_name ++ lit ": " ++ exn_str e))
  | None => ret (lit "Unknown tool: " ++ tool_name)
  end.

(** The system turn, rendered anew for each request. *)
Definition system_turn : Turn :=
  {| role := system;
     content := SYSTEM_PROMPT_format format_tool_descriptions |}.

(** [ollama.chat(model=MODEL, messages=[system turn, *history])] and
    the content of the message of its response. *)
Definition request : M str :=
  h <- get_history ;;
  let messages := system_turn :: h in
  log (BackendCall MODEL messages) ;;
  fun st =>
    let (r, m) := ollama_chat P MODEL messages (host st) in
    (r, {| history := history st; host := m; trace := trace st |}).

(** One block of the tool results. *)
Definition result_block (tool_name result : str) : str :=
  lit "Results from " ++ tool_name ++ lit ":" ++ nl ++ result.

(** The line printed before a tool runs; it starts with a wrench
    (U+1F527). *)
Definition running_line (tool_name : str) : str :=
  lit "[dim]" ++ [128295%N] ++ lit " Running " ++ tool_name ++ lit "...[/dim]".

(** The loop over [tool_calls], with its accumulator [tool_results]. *)
Fixpoint run_tools (tool_calls tool_results : list str) : M (list str) :=
  match tool_calls with
  | [] => ret tool_results
  | tool_name :: rest =>
      console_print (running_line tool_name) ;;
      result <- execute_tool tool_name ;;
      run_tools rest (tool_results ++ [result_block tool_name result])
  end.

(** The content of the turn that hands the results to the model. *)
Definition results_message (tool_results : list str) : str :=
  let tool_context := join (nl ++ nl) tool_results in
  lit "Here are the tool results:" ++ nl ++ nl ++ tool_context ++ nl ++ nl
  ++ lit "Please explain these results to me in a friendly, easy-to-understand way.".

Definition chat (user_message : str) : M str :=
  history_append {| role := user; content := user_message |} ;;
  assistant_message <- request ;;
  tool_calls <- call extract_tool_calls assistant_message ;;
  assistant_message <-
    match tool_calls with
    | [] => ret assistant_message
    | _ :: _ =>
        tool_results <- run_tools tool_calls [] ;;
        history_append {| role := assistant; content := assistant_message |} ;;
        history_append {| role := user; content := results_message tool_results |} ;;
        request
    end ;;
  history_append {| role := assistant; content := assistant_message |} ;;
  ret assistant_message.

(** ** The session loop [main] of chat.py

    What [console.print] is given is logged as it is written in the
    source, a panel or a markdown text by its text; the spinner of
    [console.status] and the prompt of [Prompt.ask] leave no line. The
    inputs are a script: what each call of [Prompt.ask] returns or
    raises. *)

Variable Sh : Shell P.

(** [s.split(":")[0]] *)
Fixpoint before_colon (s : str) : str :=
  match s with
  | [] => []
  | c :: s' => if (c =? 58)%N then [] else c :: before_colon s'
  end.

(** The values [m["name"]] of the entries, or the [KeyError] of the
    first entry without that key. *)
Fixpoint entry_names (entries : list (option str)) : outcome (list str) :=
  match entries with
  | [] => Return []
  | None :: _ => Raise {| is_Exception := true; exn_str := lit "'name'" |}
  | Some n :: rest =>
      match entry_names rest with
      | Return names => Return (n :: names)
      | Raise e => Raise e
      end
  end.

(** [x in names] *)
Definition mem (x : str) (names : list str) : bool := existsb (str_eqb x) names.

(** The test that decides the pull, on the names of the listing. *)
Definition needs_pull (names : list str) : bool :=
  let model_names := map before_colon names in
  negb (mem MODEL model_names) && negb (mem (MODEL ++ lit ":latest") names).

Definition banner : str :=
  lit "[bold blue]" ++ [129302%N] ++ lit " My Machine Bot[/bold blue]" ++ nl
  ++ lit "[dim]A local AI assistant that knows about your system[/dim]" ++ nl ++ nl
  ++ lit "Ask me about your CPU, memory, disk, network, processes, and more!" ++ nl
  ++ lit "Type [bold]'quit'[/bold] or [bold]'exit'[/bold] to leave.".

Definition pulling_line : str :=
  nl ++ lit "[yellow]" ++ [9888%N] ++ [65039%N] ++ lit "  Model '" ++ MODEL
  ++ lit "' not found. Pulling it now...[/yellow]".

Definition first_run_line : str :=
  lit "[dim]This may take a few minutes on first run.[/dim]" ++ nl.

Definition ready_line : str :=
  lit "[green]" ++ [10003%N] ++ lit " Model '" ++ MODEL ++ lit "' ready![/green]" ++ nl.

Definition connect_error_line (e : exn) : str :=
  nl ++ lit "[red]" ++ [10060%N] ++ lit " Error connecting to Ollama: "
  ++ exn_str e ++ lit "[/red]".

Definition hint_line : str :=
  lit "[yellow]Make sure Ollama is running: brew services start ollama[/yellow]".

Definition goodbye_line : str :=
  nl ++ lit "[blue]" ++ [128075%N] ++ lit " Goodbye![/blue]".

Definition interrupted_line : str :=
  nl ++ nl ++ lit "[blue]" ++ [128075%N] ++ lit " Goodbye![/blue]".

Definition bot_line : str := nl ++ lit "[bold blue]Bot[/bold blue]".

Definition error_line (e : exn) : str :=
  nl ++ lit "[red]Error: " ++ exn_str e ++ lit "[/red]".

(** An operation on the host alone. *)
Definition on_host {A : Type} (f : machine P -> outcome A * machine P) : M A :=
  fun st =>
    let (r, h) := f (host st) in
    (r, {| history := history st; host := h; trace := trace st |}).

(** The check of the model, in its [try]: whether the session may
    start. *)
Definition startup : M bool :=
  try_except
    (models <- on_host (ollama_list Sh) ;;
     let entries := match models with Some l => l | None => [] end in
     names <- lift (entry_names entries) ;;
     if needs_pull names then
       console_print pulling_line ;;
       console_print first_run_line ;;
       on_host (ollama_pull Sh MODEL) ;;
       console_print ready_line ;;
       ret true
     else ret true)
    (fun e =>
       console_print (connect_error_line e) ;;
       console_print hint_line ;;
       ret false).

Definition ascii_lower (c : char) : char :=
  if in_range 65 90 c then (c + 32)%N else c.

(** [s.lower()] *)
Definition lower (s : str) : str :=
  if forallb (fun c => (c <? 128)%N) s then map ascii_lower s
  else unicode_lower Sh s.

(** [user_input.lower() in ['quit', 'exit', 'q']] *)
Definition is_quit (user_input : str) : bool :=
  mem (lower user_input) [lit "quit"; lit "exit"; lit "q"].

(** [not user_input.strip()]: the input is white space throughout. *)
Definition blank (user_input : str) : bool :=
  forallb Py_UNICODE_ISSPACE user_input.

(** The two handlers of the loop, in their order. *)
Definition handled (body : M control) : M control :=
  fun st =>
    match body st with
    | (Raise e, st') =>
        if is_KeyboardInterrupt Sh e then
          (console_print interrupted_line ;; ret (Break Interrupted)) st'
        else if is_Exception e then
          (console_print (error_line e) ;; ret Continue) st'
        else (Raise e, st')
    | r => r
    end.

(** One round of the loop on what [Prompt.ask] gives. *)
Definition round (asked : outcome str) : M control :=
  handled
    (user_input <- lift asked ;;
     if is_quit user_input then
       console_print goodbye_line ;; ret (Break Left)
     else if blank user_input then ret Continue
     else
       response <- chat user_input ;;
       console_print bot_line ;;
       console_print response ;;
       ret Continue).

(** The loop [while True], along the script. *)
Fixpoint session (script : list (outcome str)) : M ending :=
  match script with
  | [] => ret Waiting
  | asked :: rest =>
      c <- round asked ;;
      match c with
      | Break e => ret e
      | Continue => session rest
      end
  end.

(** [history = []] *)
Definition new_history : M unit :=
  fun st => (Return tt, {| history := []; host := host st; trace := trace st |}).

Definition main (script : list (outcome str)) : M ending :=
  console_print banner ;;
  ok <- startup ;;
  if ok then new_history ;; session script
  else ret Unavailable.

(** ** States reached by the steps of the protocol *)

(** The state after the call of a tool function that left the host
    in [h]. *)
Definition after_tool (name : str) (st : state P) (h : machine P) : state P :=
  {| history := history st; host := h; trace := trace st ++ [ToolCall name] |}.

(** The text the dispatcher makes of an error. *)
Definition error_text (name : str) (e : exn) : str :=
  lit "Error executing " ++ name ++ lit ": " ++ exn_str e.

(** The state after the line of tool [name] is printed. *)
Definition printed (name : str) (st : state P) : state P :=
  {| history := history st; host := host st;
     trace := trace st ++ [ConsolePrint (running_line name)] |}.

(** The state after [history.append(t)]. *)
Definition appended (t : Turn) (st : state P) : state P :=
  {| history := history st ++ [t]; host := host st; trace := trace st |}.

(** The state after a request that left the host in [m]. *)
Definition after_request (st : state P) (m : machine P) : state P :=
  {| history := history st; host := m;
     trace := trace st ++ [BackendCall MODEL (system_turn :: history st)] |}.

(** The five ways a call of [chat] can go, with the outcome and the
    state it ends in: the first request fails; the first reply asks for
    no tool; a tool is interrupted; the second request fails; the
    second reply comes. *)
Inductive chat_run (um : str) (st : state P) : outcome str -> state P -> Prop :=
| run_backend_failed e m :
    let st0 := appended {| role := user; content := um |} st in
    ollama_chat P MODEL (system_turn :: history st0) (host st0) = (Raise e, m) ->
    chat_run um st (Raise e) (after_request st0 m)
| run_answered reply m :
    let st0 := appended {| role := user; content := um |} st in
    ollama_chat P MODEL (system_turn :: history st0) (host st0) = (Return reply, m) ->
    extract_tool_calls reply = [] ->
    chat_run um st (Return reply)
      (appended {| role := assistant; content := reply |} (after_request st0 m))
| run_interrupted reply1 m e st2 :
    let st0 := appended {| role := user; content := um |} st in
    ollama_chat P MODEL (system_turn :: history st0) (host st0) = (Return reply1, m) ->
    extract_tool_calls reply1 <> [] ->
    run_tools (extract_tool_calls reply1) [] (after_request st0 m) = (Raise e, st2) ->
    chat_run um st (Raise e) st2
| run_second_failed reply1 m tool_results st2 e m' :
    let st0 := appended {| role := user; content := um |} st in
    let st3 := appended {| role := user; content := results_message tool_results |}
                 (appended {| role := assistant; content := reply1 |} st2) in
    ollama_chat P MODEL (system_turn :: history st0) (host st0) = (Return reply1, m) ->
    extract_tool_calls reply1 <> [] ->
    run_tools (extract_tool_calls reply1) [] (after_request st0 m)
    = (Return tool_results, st2) ->
    ollama_chat P MODEL (system_turn :: history st3) (host st3) = (Raise e, m') ->
    chat_run um st (Raise e) (after_request st3 m')
| run_explained reply1 m tool_results st2 reply2 m' :
    let st0 := appended {| role := user; content := um |} st in
    let st3 := appended {| role := user; content := results_message tool_results |}
                 (appended {| role := assistant; content := reply1 |} st2) in
    ollama_chat P MODEL (system_turn :: history st0) (host st0) = (Return reply1, m) ->
    extract_tool_calls reply1 <> [] ->
    run_tools (extract_tool_calls reply1) [] (after_request st0 m)
    = (Return tool_results, st2) ->
    ollama_chat P MODEL (system_turn :: history st3) (host st3) = (Return reply2, m') ->
    chat_run um st (Return reply2)
      (appended {| role := assistant; content := reply2 |} (after_request st3 m')).

(** No tool function and no rendering of a result is cut short by
    an interrupt or an exit request: what they raise are errors. *)
Definition uninterrupted : Prop :=
  (forall name info m e m',
      lookup name TOOLS = Some info ->
      function info m = (Raise e, m') -> is_Exception e = true) /\
  (forall v e, json_dumps P v 2 = Raise e -> is_Exception e = true).

(** [dispatched names st payloads st']: dispatching the tools [names]
    one after the other from [st], with the line printed before each,
    returns [payloads] and ends in [st']. *)
Inductive dispatched : list str -> state P -> list str -> state P -> Prop :=
| dispatched_nil st : dispatched [] st [] st
| dispatched_cons name names st st1 st2 st3 payload payloads :
    console_print (running_line name) st = (Return tt, st1) ->
    execute_tool name st1 = (Return payload, st2) ->
    dispatched names st2 payloads st3 ->
    dispatched (name :: names) st (payload :: payloads) st3.

(** The blocks of the names and their payloads, pairwise. *)
Definition result_blocks (names payloads : list str) : list str :=
  map (fun np => result_block (fst np) (snd np)) (combine names payloads).

(** [scanned text names]: [text] reads as prose without any marker,
    then a well-formed marker, then prose, and so on, and [names] are
    the names of these markers in the order of the text. *)
Inductive scanned : str -> list str -> Prop :=
| scanned_prose prose :
    ~ contains_marker prose -> scanned prose []
| scanned_marker prose ws name rest names :
    ~ contains_marker prose ->
    well_formed ws name ->
    scanned rest names ->
    scanned (prose ++ marker ws name ++ rest) (name :: names).

(** ** What a trace shows of the tools *)

(** The names of the tools whose functions were called, in order. *)
Fixpoint tool_calls_of (t : list event) : list str :=
  match t with
  | [] => []
  | ToolCall n :: t' => n :: tool_calls_of t'
  | _ :: t' => tool_calls_of t'
  end.

(** The lines printed on the console, in order. *)
Fixpoint console_lines (t : list event) : list str :=
  match t with
  | [] => []
  | ConsolePrint l :: t' => l :: console_lines t'
  | _ :: t' => console_lines t'
  end.

(** [name in TOOLS] *)
Definition registered (name : str) : bool :=
  match lookup name TOOLS with
  | Some _ => true
  | None => false
  end.

(** A name that the pattern can capture: one or more word characters. *)
Definition identifier (name : str) : Prop :=
  name <> [] /\ forallb is_word name = true.

(** What the loop over the names does to the outside: for each name,
    its line on the console and then, when the name is registered, the
    call of its function. *)
Definition tool_events (names : list str) : list event :=
  concat (map (fun n => ConsolePrint (running_line n)
                        :: if registered n then [ToolCall n] else [])
              names).

(** [paired prev h]: the history [h], coming after a turn of role
    [prev], holds no system turn, and each of its assistant turns comes
    directly after a user turn. *)
Fixpoint paired (prev : Role) (h : list Turn) : bool :=
  match h with
  | [] => true
  | t :: h' =>
      match role t with
      | system => false
      | user => paired user h'
      | assistant =>
          match prev with
          | user => paired assistant h'
          | _ => false
          end
      end
  end.

(** The role of the last turn of [h], or [prev] when [h] is empty. *)
Fixpoint last_role (prev : Role) (h : list Turn) : Role :=
  match h with
  | [] => prev
  | t :: h' => last_role (role t) h'
  end.

(** The state after lines are printed with the host left in [h]. *)
Definition shown (lines : list str) (h : machine P) (st : state P) : state P :=
  {| history := history st; host := h;
     trace := trace st ++ map ConsolePrint lines |}.

(** The [KeyError] of an entry without the key "name". *)
Definition name_KeyError : exn :=
  {| is_Exception := true; exn_str := lit "'name'" |}.

(** * Properties *)

(** ** Facts on the categories *)

Lemma ascii_alnum_not_space c :
  ascii_alnum c = true -> Py_UNICODE_ISSPACE c = false.
Proof.
  intros H. destruct (Py_UNICODE_ISSPACE c) eqn:E; [exfalso|reflexivity].
  unfold ascii_alnum, Py_UNICODE_ISSPACE, in_range in *. bool_lia.
Qed.

Lemma word_not_space c : is_word c = true -> is_space c = false.
Proof.
  unfold is_word, is_space, in_category, Py_UNICODE_ISALNUM. intros H.
  apply orb_true_iff in H. destruct H as [H|H].
  - destruct (c <? 128)%N eqn:E.
    + now apply ascii_alnum_not_space.
    + apply alnum_not_space; [now apply N.ltb_ge|assumption].
  - apply N.eqb_eq in H. subst c. reflexivity.
Qed.

Lemma space_not_word c : is_space c = true -> is_word c = false.
Proof.
  intros H. destruct (is_word c) eqn:E; [|reflexivity].
  apply word_not_space in E. congruence.
Qed.

Lemma word_not_punct c : is_word c = true -> ~ punct c.
Proof.
  unfold is_word, in_category, Py_UNICODE_ISALNUM, punct. intros H [E|[E|E]];
    subst c; discriminate H.
Qed.

Lemma space_not_punct c : is_space c = true -> ~ punct c.
Proof.
  unfold is_space, in_category, punct. intros H [E|[E|E]];
    subst c; discriminate H.
Qed.

(** ** Facts on the matcher *)

Lemma strip_prefix_app p r : strip_prefix p (p ++ r) = Some r.
Proof.
  induction p as [|c p IH]; simpl; [reflexivity|].
  now rewrite N.eqb_refl.
Qed.

Lemma strip_prefix_inv p : forall s r, strip_prefix p s = Some r -> s = p ++ r.
Proof.
  induction p as [|c p IH]; simpl; intros s r H.
  - congruence.
  - destruct s as [|x s]; [discriminate|].
    destruct (N.eqb x c) eqn:E; [|discriminate].
    apply N.eqb_eq in E. subst x. f_equal. now apply IH.
Qed.

Lemma sre_match_literals p code : forall ptr s m,
  sre_match (map LITERAL p ++ code) ptr s m =
  match strip_prefix p s with
  | Some r => sre_match code (ptr + length p) r m
  | None => None
  end.
Proof.
  induction p as [|c p IH]; simpl; intros ptr s m.
  - now rewrite Nat.add_0_r.
  - destruct s as [|x s]; [reflexivity|].
    destruct (N.eqb x c); [|reflexivity].
    rewrite IH. now rewrite Nat.add_succ_r.
Qed.

(** When every shorter repetition fails, the greedy repetition is
    decided by its longest candidate. *)
Lemma try_down_longest {A : Type} (k : nat -> option A) lo : forall n,
  lo <= n -> (forall i, i < n -> k i = None) ->
  try_down k lo n = k n.
Proof.
  intros n Hlo Hk. destruct n as [|n]; simpl.
  - replace lo with 0 by lia. simpl. now destruct (k 0).
  - destruct (Nat.ltb (S n) lo) eqn:E; [apply Nat.ltb_lt in E; lia|].
    destruct (k (S n)); [reflexivity|].
    clear E Hlo. assert (H : forall j, j <= n -> try_down k lo j = None).
    { induction j as [|j IH]; intros Hj; simpl.
      - destruct (Nat.ltb 0 lo); [reflexivity|]. now rewrite Hk by lia.
      - destruct (Nat.ltb (S j) lo); [reflexivity|].
        rewrite Hk by lia. apply IH. lia. }
    now apply H.
Qed.

Lemma try_down_short {A : Type} (k : nat -> option A) lo n :
  n < lo -> try_down k lo n = None.
Proof.
  intros H. destruct n; simpl;
    (destruct (Nat.ltb _ lo) eqn:E; [reflexivity|apply Nat.ltb_ge in E; lia]).
Qed.

Lemma count_run_skipn k s i :
  i < count_run k s ->
  exists c r, skipn i s = c :: r /\ in_category k c = true.
Proof.
  revert i. induction s as [|x s IH]; simpl; intros i H; [lia|].
  destruct (in_category k x) eqn:E; [|lia].
  destruct i as [|i]; simpl.
  - eauto.
  - apply IH. lia.
Qed.

Lemma count_run_firstn k s :
  forallb (in_category k) (firstn (count_run k s) s) = true.
Proof.
  induction s as [|x s IH]; simpl; [reflexivity|].
  destruct (in_category k x) eqn:E; simpl; [|reflexivity].
  now rewrite E.
Qed.

Lemma count_run_app k a r :
  forallb (in_category k) a = true ->
  count_run k (a ++ r) = length a + count_run k r.
Proof.
  induction a as [|x a IH]; simpl; intros H; [reflexivity|].
  apply andb_true_iff in H. destruct H as [Hx Ha].
  rewrite Hx. now rewrite IH.
Qed.

Lemma count_run_stop k c r : in_category k c = false -> count_run k (c :: r) = 0.
Proof. intros H. simpl. now rewrite H. Qed.

(** The backtracking matcher never has to backtrack on this pattern:
    white space and word characters are disjoint and the bracket is in
    neither category, so both repetitions take their longest run. *)
Lemma sre_match_tail r ptr :
  sre_match tail_code ptr r [] =
  let n := count_run CATEGORY_SPACE r in
  let r1 := skipn n r in
  let w := count_run CATEGORY_WORD r1 in
  match w with
  | 0 => None
  | S _ =>
      match skipn w r1 with
      | c :: _ =>
          if N.eqb c 93 then Some (S (ptr + n + w), [(1, ptr + n + w); (0, ptr + n)])
          else None
      | [] => None
      end
  end.
Proof.
  cbv zeta. unfold tail_code. cbn [sre_match].
  rewrite try_down_longest; [|lia|].
  - set (n := count_run CATEGORY_SPACE r).
    set (r1 := skipn n r).
    set (w := count_run CATEGORY_WORD r1).
    destruct w as [|w'] eqn:Ew.
    + apply try_down_short. lia.
    + rewrite <- Ew. rewrite try_down_longest; [|lia|].
      * destruct (skipn w r1) as [|c r2]; [reflexivity|].
        destruct (N.eqb c 93); [|reflexivity].
        reflexivity.
      * intros j Hj. destruct (count_run_skipn CATEGORY_WORD r1 j) as (c & r2 & E & Hc).
        { fold w. lia. }
        rewrite E. apply word_not_punct in Hc.
        destruct (N.eqb c 93) eqn:E93; [|reflexivity].
        apply N.eqb_eq in E93. exfalso. apply Hc. right. now left.
  - intros i Hi. destruct (count_run_skipn _ _ _ Hi) as (c & r2 & E & Hc).
    rewrite E. apply try_down_short. rewrite count_run_stop; [lia|].
    now apply space_not_word.
Qed.

Lemma match_at_eq s :
  match_at s =
  match strip_prefix (lit "[TOOL:") s with
  | None => None
  | Some r =>
      let n := count_run CATEGORY_SPACE r in
      let r1 := skipn n r in
      let w := count_run CATEGORY_WORD r1 in
      match w with
      | 0 => None
      | S _ =>
          match skipn w r1 with
          | c :: _ => if N.eqb c 93 then Some (7 + n + w, firstn w r1) else None
          | [] => None
          end
      end
  end.
Proof.
  unfold match_at, pattern. rewrite sre_match_literals.
  destruct (strip_prefix (lit "[TOOL:") s) as [r|] eqn:E; [|reflexivity].
  fold tail_code. rewrite sre_match_tail. cbv zeta.
  apply strip_prefix_inv in E. subst s.
  set (n := count_run CATEGORY_SPACE r).
  set (r1 := skipn n r).
  set (w := count_run CATEGORY_WORD r1).
  destruct w as [|w'] eqn:Ew; [reflexivity|]. rewrite <- Ew.
  destruct (skipn w r1) as [|c r2]; [reflexivity|].
  destruct (N.eqb c 93); [|reflexivity].
  change (lit "[TOOL:") with [91; 84; 79; 79; 76; 58]%N.
  f_equal. f_equal. unfold group. simpl.
  replace (n + w - n) with w by lia. reflexivity.
Qed.

Lemma marker_length ws name : length (marker ws name) = 7 + length ws + length name.
Proof. unfold marker. rewrite !length_app. simpl. lia. Qed.

Lemma skipn_app_exact {A : Type} (a r : list A) : skipn (length a) (a ++ r) = r.
Proof. induction a; simpl; auto. Qed.

Lemma firstn_app_exact {A : Type} (a r : list A) : firstn (length a) (a ++ r) = a.
Proof. induction a; simpl; [reflexivity|now f_equal]. Qed.

Lemma well_formed_head ws name :
  well_formed ws name ->
  exists c name', name = c :: name' /\ is_word c = true.
Proof.
  intros (_ & Hne & Hw). destruct name as [|c name']; [congruence|].
  simpl in Hw. apply andb_true_iff in Hw. destruct Hw. eauto.
Qed.

(** A well-formed marker at the head of the text is matched whole, and
    its name is the group. *)
Lemma match_at_marker ws name rest :
  well_formed ws name ->
  match_at (marker ws name ++ rest) = Some (length (marker ws name), name).
Proof.
  intros Hwf. destruct (well_formed_head _ _ Hwf) as (c & name' & En & Hc).
  destruct Hwf as (Hs & _ & Hw).
  rewrite match_at_eq. unfold marker at 1. rewrite <- app_assoc.
  rewrite strip_prefix_app. cbv zeta.
  assert (En' : count_run CATEGORY_SPACE ((ws ++ name ++ [93%N]) ++ rest) = length ws).
  { rewrite <- app_assoc. rewrite count_run_app by exact Hs.
    rewrite En. simpl app. rewrite count_run_stop; [lia|].
    now apply word_not_space. }
  rewrite En'. rewrite <- (app_assoc ws). rewrite skipn_app_exact.
  assert (Ew : count_run CATEGORY_WORD ((name ++ [93%N]) ++ rest) = length name).
  { rewrite <- app_assoc. rewrite count_run_app by exact Hw.
    simpl app. rewrite count_run_stop; [lia|]. reflexivity. }
  rewrite Ew. rewrite <- (app_assoc name). rewrite skipn_app_exact, firstn_app_exact.
  rewrite marker_length. subst name. reflexivity.
Qed.

(** Conversely, every match is a well-formed marker at the head. *)
Lemma match_at_inv s e g :
  match_at s = Some (e, g) ->
  exists ws rest,
    s = marker ws g ++ rest /\ well_formed ws g /\ e = length (marker ws g).
Proof.
  rewrite match_at_eq.
  destruct (strip_prefix (lit "[TOOL:") s) as [r|] eqn:E; [|discriminate].
  apply strip_prefix_inv in E. cbv zeta.
  set (n := count_run CATEGORY_SPACE r).
  set (r1 := skipn n r).
  set (w := count_run CATEGORY_WORD r1).
  destruct w as [|w'] eqn:Ew; [discriminate|]. rewrite <- Ew.
  destruct (skipn w r1) as [|c r2] eqn:E2; [discriminate|].
  destruct (N.eqb c 93) eqn:Ec; [|discriminate].
  apply N.eqb_eq in Ec. subst c. intros H. injection H as He Hg.
  exists (firstn n r), r2.
  assert (Hr : r = firstn n r ++ g ++ 93%N :: r2).
  { rewrite <- (firstn_skipn n r) at 1. f_equal. fold r1.
    rewrite <- (firstn_skipn w r1) at 1. now rewrite Hg, E2. }
  assert (Hlen : length g = w).
  { subst g. rewrite length_firstn.
    assert (length (skipn w r1) = length r1 - w) by apply length_skipn.
    rewrite E2 in H. simpl in H. lia. }
  assert (Hlen' : length (firstn n r) = n).
  { rewrite length_firstn.
    assert (length (skipn n r) = length r - n) by apply length_skipn.
    fold r1 in H. destruct r1; [simpl in Ew; subst w; discriminate|].
    simpl in H. lia. }
  repeat split.
  - subst s. unfold marker. rewrite <- !app_assoc. f_equal. exact Hr.
  - apply (count_run_firstn CATEGORY_SPACE).
  - intros ->. simpl in Hlen. lia.
  - subst g. apply (count_run_firstn CATEGORY_WORD).
  - rewrite marker_length. lia.
Qed.

(** ** The scan loop on this pattern *)

Lemma extract_nil : extract_tool_calls [] = [].
Proof. unfold extract_tool_calls. simp findall. reflexivity. Qed.

Lemma extract_step_none c s :
  match_at (c :: s) = None ->
  extract_tool_calls (c :: s) = extract_tool_calls s.
Proof.
  unfold extract_tool_calls, match_at. intros H. simp findall.
  destruct (sre_match pattern 0 (c :: s) []) as [[e m]|]; [discriminate|].
  reflexivity.
Qed.

Lemma extract_step_match s e g :
  match_at s = Some (e, g) ->
  extract_tool_calls s = g :: extract_tool_calls (skipn e s).
Proof.
  intros H. destruct (match_at_inv _ _ _ H) as (ws & rest & _ & _ & He).
  rewrite marker_length in He.
  destruct s as [|c s]; [discriminate H|].
  unfold extract_tool_calls, match_at in *. simp findall.
  destruct (sre_match pattern 0 (c :: s) []) as [[e' m]|]; [|discriminate].
  injection H as He' Hg. subst e' g. simp findall.
  destruct e as [|e]; [lia|]. reflexivity.
Qed.

(** A marker has its opening bracket at its head only. *)
Lemma marker_tail_no_open ws name :
  well_formed ws name ->
  ~ In 91%N (tl (marker ws name)).
Proof.
  intros (Hs & _ & Hw) Hin. unfold marker in Hin. simpl in Hin.
  repeat (destruct Hin as [Hin|Hin]; [discriminate|]).
  rewrite !in_app_iff in Hin. destruct Hin as [Hin|[Hin|Hin]].
  - rewrite forallb_forall in Hs. apply Hs in Hin.
    apply space_not_punct in Hin. apply Hin. now left.
  - rewrite forallb_forall in Hw. apply Hw in Hin.
    apply word_not_punct in Hin. apply Hin. now left.
  - simpl in Hin. destruct Hin as [Hin|[]]. discriminate.
Qed.

(** A text split in two ways, where [x] heads the second part of one
    split and occurs in the first part [m] of the other at its head at
    most: [m] ends before that [x]. *)
Lemma app_split_head (x : char) (m rest a b : str) :
  m ++ rest = a ++ x :: b ->
  a <> [] ->
  ~ In x (tl m) ->
  exists a', a = m ++ a' /\ rest = a' ++ x :: b.
Proof.
  intros E Ha Hx. apply app_eq_app in E. destruct E as (l & [[E1 E2]|[E1 E2]]).
  - destruct l as [|y l].
    + exists []. rewrite app_nil_r in E1. simpl in E2. subst m rest.
      split; [now rewrite app_nil_r|reflexivity].
    + simpl in E2. injection E2 as -> _. exfalso. apply Hx.
      subst m. destruct a as [|z a]; [congruence|]. simpl.
      apply in_or_app. right. now left.
  - eauto.
Qed.

Lemma marker_head ws name : exists t, marker ws name = 91%N :: t.
Proof. unfold marker. simpl. eauto. Qed.

(** The scan is compositional: a well-formed marker contributes its
    name, between what the text before it and the text after it
    contribute. *)
Lemma extract_app_marker ws name post :
  well_formed ws name ->
  forall pre,
    extract_tool_calls (pre ++ marker ws name ++ post) =
    extract_tool_calls pre ++ name :: extract_tool_calls post.
Proof.
  intros Hwf pre. remember (length pre) as k eqn:Ek. revert pre Ek.
  induction k as [k IH] using lt_wf_ind. intros pre Ek.
  destruct pre as [|c pre].
  - rewrite extract_nil. cbn [app].
    rewrite (extract_step_match _ _ _ (match_at_marker _ _ post Hwf)).
    now rewrite skipn_app_exact.
  - destruct (match_at ((c :: pre) ++ marker ws name ++ post)) as [[e g]|] eqn:E.
    + destruct (match_at_inv _ _ _ E) as (ws' & rest & Es & Hwf' & He).
      destruct (marker_head ws name) as (t & Et).
      rewrite Et in Es. simpl app in Es at 2.
      symmetry in Es. apply app_split_head in Es;
        [|discriminate|now apply marker_tail_no_open].
      destruct Es as (pre'' & Ep & Er).
      rewrite (extract_step_match _ _ _ E).
      rewrite Ep at 1. rewrite <- app_assoc. rewrite He, skipn_app_exact.
      rewrite Ep. rewrite (extract_step_match _ _ _ (match_at_marker _ _ pre'' Hwf')).
      rewrite skipn_app_exact. rewrite <- app_comm_cons. f_equal.
      eapply IH; [|reflexivity].
      rewrite Ek, Ep. rewrite length_app, marker_length. lia.
    + assert (E' : match_at (c :: pre) = None).
      { destruct (match_at (c :: pre)) as [[e g]|] eqn:E'; [|reflexivity].
        destruct (match_at_inv _ _ _ E') as (ws' & rest & Es & Hwf' & He).
        rewrite Es in E. rewrite <- app_assoc in E.
        rewrite (match_at_marker _ _ _ Hwf') in E. discriminate. }
      rewrite <- app_comm_cons in *. rewrite (extract_step_none _ _ E).
      rewrite (extract_step_none _ _ E'). eapply IH; [|reflexivity].
      rewrite Ek. simpl. lia.
Qed.

(** Every extracted name is the name of a well-formed marker of the
    text. *)
Lemma extract_In_inv name : forall s,
  In name (extract_tool_calls s) ->
  exists pre ws post, s = pre ++ marker ws name ++ post /\ well_formed ws name.
Proof.
  intros s. remember (length s) as k eqn:Ek. revert s Ek.
  induction k as [k IH] using lt_wf_ind. intros s Ek Hin.
  destruct s as [|c s]; [rewrite extract_nil in Hin; destruct Hin|].
  destruct (match_at (c :: s)) as [[e g]|] eqn:E.
  - rewrite (extract_step_match _ _ _ E) in Hin.
    destruct (match_at_inv _ _ _ E) as (ws & rest & Es & Hwf & He).
    rewrite Es, He, skipn_app_exact in Hin. destruct Hin as [Hin|Hin].
    + subst g. exists [], ws, rest. split; [exact Es|exact Hwf].
    + eapply IH in Hin; [| |reflexivity].
      * destruct Hin as (pre & ws' & post & Er & Hwf').
        exists (marker ws g ++ pre), ws', post. split; [|exact Hwf'].
        rewrite Es, Er. now rewrite <- app_assoc.
      * rewrite Ek, Es, length_app, marker_length. lia.
  - rewrite (extract_step_none _ _ E) in Hin.
    eapply IH in Hin; [| |reflexivity].
    + destruct Hin as (pre & ws' & post & Er & Hwf').
      exists (c :: pre), ws', post. split; [|exact Hwf'].
      now rewrite Er.
    + rewrite Ek. simpl. lia.
Qed.

Lemma extract_In pre ws name post :
  well_formed ws name ->
  In name (extract_tool_calls (pre ++ marker ws name ++ post)).
Proof.
  intros Hwf. rewrite (extract_app_marker _ _ post Hwf).
  apply in_or_app. right. now left.
Qed.

Lemma extract_no_marker text :
  ~ contains_marker text -> extract_tool_calls text = [].
Proof.
  intros H. destruct (extract_tool_calls text) as [|n l] eqn:E; [reflexivity|].
  exfalso. apply H. destruct (extract_In_inv n text) as (pre & ws & post & Et & Hwf).
  - rewrite E. now left.
  - exists pre, ws, n, post. now split.
Qed.

Lemma extract_nonempty_iff text :
  extract_tool_calls text <> [] <-> contains_marker text.
Proof.
  split.
  - intros H. destruct (extract_tool_calls text) as [|n l] eqn:E; [congruence|].
    destruct (extract_In_inv n text) as (pre & ws & post & Et & Hwf).
    + rewrite E. now left.
    + exists pre, ws, n, post. now split.
  - intros (pre & ws & n & post & Et & Hwf) E.
    pose proof (extract_In pre _ _ post Hwf) as Hin.
    rewrite <- Et, E in Hin. destruct Hin.
Qed.

Lemma extract_empty_no_marker text :
  extract_tool_calls text = [] -> ~ contains_marker text.
Proof.
  intros E H. apply extract_nonempty_iff in H. congruence.
Qed.

(** The scan reads the text as [scanned] describes it. *)
Lemma scanned_extract : forall text, scanned text (extract_tool_calls text).
Proof.
  intros text. remember (length text) as k eqn:Ek. revert text Ek.
  induction k as [k IH] using lt_wf_ind. intros text Ek.
  destruct text as [|c s].
  - rewrite extract_nil. constructor. apply extract_empty_no_marker.
    apply extract_nil.
  - destruct (match_at (c :: s)) as [[e g]|] eqn:E.
    + rewrite (extract_step_match _ _ _ E).
      destruct (match_at_inv _ _ _ E) as (ws & rest & Es & Hwf & He).
      rewrite Es, He, skipn_app_exact.
      apply (scanned_marker [] ws g rest); [|exact Hwf|].
      * apply extract_empty_no_marker. apply extract_nil.
      * eapply IH; [|reflexivity].
        rewrite Ek, Es, length_app, marker_length. lia.
    + rewrite (extract_step_none _ _ E).
      assert (Hs : scanned s (extract_tool_calls s)).
      { eapply IH; [|reflexivity]. rewrite Ek. simpl. lia. }
      pose proof (extract_step_none _ _ E) as Estep.
      remember (extract_tool_calls s) as l eqn:El.
      destruct Hs as [prose Hno|prose ws name rest names Hno Hwf Hrest].
      * constructor. apply extract_empty_no_marker. congruence.
      * rewrite app_comm_cons.
        apply (scanned_marker (c :: prose) ws name rest names);
          [|exact Hwf|exact Hrest].
        apply extract_empty_no_marker.
        assert (E' : match_at (c :: prose) = None).
        { destruct (match_at (c :: prose)) as [[e g]|] eqn:E'; [|reflexivity].
          destruct (match_at_inv _ _ _ E') as (ws' & rest' & Es & Hwf' & He).
          rewrite app_comm_cons, Es, <- app_assoc in E.
          rewrite (match_at_marker _ _ _ Hwf') in E. discriminate. }
        rewrite (extract_step_none _ _ E').
        now apply extract_no_marker.
Qed.

Lemma extract_scanned text names :
  scanned text names -> extract_tool_calls text = names.
Proof.
  induction 1 as [prose Hno|prose ws name rest names Hno Hwf Hrest IH].
  - now apply extract_no_marker.
  - rewrite (extract_app_marker _ _ _ Hwf).
    rewrite (extract_no_marker _ Hno). simpl. now rewrite IH.
Qed.

(** ** The registry *)

Lemma str_eqb_eq a : forall b, str_eqb a b = true <-> a = b.
Proof.
  induction a as [|x a IH]; intros [|y b]; simpl; split; intros H;
    try reflexivity; try discriminate.
  - apply andb_true_iff in H. destruct H as [Hx Ha].
    apply N.eqb_eq in Hx. apply IH in Ha. now subst.
  - injection H as -> ->. rewrite N.eqb_refl. simpl. now apply IH.
Qed.

Lemma lookup_None {V : Type} name (d : list (str * V)) :
  ~ In name (map fst d) -> lookup name d = None.
Proof.
  induction d as [|[k v] d IH]; simpl; intros H; [reflexivity|].
  destruct (str_eqb name k) eqn:E.
  - apply str_eqb_eq in E. exfalso. apply H. now left.
  - apply IH. intros Hin. apply H. now right.
Qed.

Lemma lookup_In {V : Type} name (d : list (str * V)) :
  In name (map fst d) -> exists v, lookup name d = Some v.
Proof.
  induction d as [|[k v] d IH]; simpl; intros H; [destruct H|].
  destruct (str_eqb name k) eqn:E; [eauto|].
  destruct H as [H|H]; [|now apply IH].
  subst k. assert (str_eqb name name = true) by now apply str_eqb_eq.
  congruence.
Qed.

(** ** The trace and the frame of the tool loop *)

Lemma backend_calls_app t1 t2 :
  backend_calls (t1 ++ t2) = backend_calls t1 ++ backend_calls t2.
Proof.
  induction t1 as [|ev t1 IH]; simpl; [reflexivity|].
  destruct ev; simpl; now rewrite IH.
Qed.

(** The dispatcher on a registered tool, case by case. *)
Lemma execute_tool_registered name info st :
  lookup name TOOLS = Some info ->
  execute_tool name st =
  match function info (host st) with
  | (Return v, h) =>
      match json_dumps P v 2 with
      | Return text => (Return text, after_tool name st h)
      | Raise e =>
          if is_Exception e then (Return (error_text name e), after_tool name st h)
          else (Raise e, after_tool name st h)
      end
  | (Raise e, h) =>
      if is_Exception e then (Return (error_text name e), after_tool name st h)
      else (Raise e, after_tool name st h)
  end.
Proof.
  intros E. unfold execute_tool. rewrite E.
  unfold try_except, invoke, log, lift, bind, ret, after_tool, error_text.
  cbn [history host trace].
  destruct (function info (host st)) as [[v|e] h].
  - destruct (json_dumps P v 2) as [text|e]; [reflexivity|].
    now destruct (is_Exception e).
  - now destruct (is_Exception e).
Qed.

Lemma execute_tool_unregistered name st :
  lookup name TOOLS = None ->
  execute_tool name st = (Return (lit "Unknown tool: " ++ name), st).
Proof. intros E. unfold execute_tool. now rewrite E. Qed.

(** Dispatching a tool leaves the history alone and calls no backend. *)
Lemma execute_tool_frame name st :
  history (snd (execute_tool name st)) = history st /\
  backend_calls (trace (snd (execute_tool name st))) = backend_calls (trace st).
Proof.
  destruct (lookup name TOOLS) as [info|] eqn:E.
  - rewrite (execute_tool_registered _ _ _ E).
    assert (F : forall h, backend_calls (trace (after_tool name st h))
                          = backend_calls (trace st)).
    { intros h. unfold after_tool. cbn [trace]. rewrite backend_calls_app.
      simpl. now rewrite app_nil_r. }
    destruct (function info (host st)) as [[v|e] h].
    + destruct (json_dumps P v 2) as [text|e]; [cbn [snd]; now rewrite F|].
      destruct (is_Exception e); cbn [snd]; now rewrite F.
    + destruct (is_Exception e); cbn [snd]; now rewrite F.
  - rewrite (execute_tool_unregistered _ _ E). now split.
Qed.

Lemma run_tools_cons n names acc st :
  run_tools (n :: names) acc st =
  match execute_tool n (printed n st) with
  | (Return payload, st2) => run_tools names (acc ++ [result_block n payload]) st2
  | (Raise e, st2) => (Raise e, st2)
  end.
Proof. reflexivity. Qed.

Lemma printed_frame n st :
  history (printed n st) = history st /\
  backend_calls (trace (printed n st)) = backend_calls (trace st).
Proof.
  split; [reflexivity|]. unfold printed. cbn [trace].
  rewrite backend_calls_app. simpl. now rewrite app_nil_r.
Qed.

Lemma run_tools_frame names : forall acc st,
  history (snd (run_tools names acc st)) = history st /\
  backend_calls (trace (snd (run_tools names acc st))) = backend_calls (trace st).
Proof.
  induction names as [|n names IH]; intros acc st; [now split|].
  rewrite run_tools_cons.
  destruct (execute_tool_frame n (printed n st)) as [Hh Hb].
  destruct (printed_frame n st) as [Hh0 Hb0].
  destruct (execute_tool n (printed n st)) as [[payload|e] st2];
    cbn [snd] in Hh, Hb.
  - destruct (IH (acc ++ [result_block n payload]) st2) as [Hh' Hb'].
    split; congruence.
  - cbn [snd]. split; congruence.
Qed.

(** The loop returns the blocks of the payloads, in the order of the
    names, after what the accumulator held. *)
Lemma run_tools_dispatched names : forall acc st results st',
  run_tools names acc st = (Return results, st') ->
  exists payloads,
    dispatched names st payloads st' /\
    results = acc ++ result_blocks names payloads.
Proof.
  induction names as [|n names IH]; intros acc st results st' H.
  - injection H as <- <-. exists []. split; [constructor|].
    unfold result_blocks. simpl. now rewrite app_nil_r.
  - rewrite run_tools_cons in H.
    destruct (execute_tool n (printed n st)) as [[payload|e] st2] eqn:E;
      [|discriminate].
    apply IH in H. destruct H as (payloads & Hd & Hr).
    exists (payload :: payloads). split.
    + econstructor; [reflexivity|exact E|exact Hd].
    + rewrite Hr. rewrite <- app_assoc. reflexivity.
Qed.

Lemma dispatched_length names st payloads st' :
  dispatched names st payloads st' -> length payloads = length names.
Proof. induction 1; simpl; congruence. Qed.

(** Without interrupts the dispatcher returns a text for every name,
    and so does the loop for every list of names. *)
Lemma execute_tool_returns name st :
  uninterrupted ->
  exists payload st', execute_tool name st = (Return payload, st').
Proof.
  intros [Hf Hj]. destruct (lookup name TOOLS) as [info|] eqn:E.
  - rewrite (execute_tool_registered _ _ _ E).
    destruct (function info (host st)) as [[v|e] h] eqn:Ef.
    + destruct (json_dumps P v 2) as [text|e] eqn:Ej; [eauto|].
      rewrite (Hj _ _ Ej). eauto.
    + rewrite (Hf _ _ _ _ _ E Ef). eauto.
  - rewrite (execute_tool_unregistered _ _ E). eauto.
Qed.

Lemma run_tools_returns names : forall acc st,
  uninterrupted ->
  exists results st', run_tools names acc st = (Return results, st').
Proof.
  induction names as [|n names IH]; intros acc st H.
  - simpl. unfold ret. eauto.
  - rewrite run_tools_cons.
    destruct (execute_tool_returns n (printed n st) H) as (payload & st2 & E).
    rewrite E. now apply IH.
Qed.

(** ** The orchestrator, case by case *)

Lemma request_eq st :
  request st =
  let (r, m) := ollama_chat P MODEL (system_turn :: history st) (host st) in
  (r, after_request st m).
Proof. reflexivity. Qed.

Lemma chat_eq um st :
  chat um st =
  let st0 := appended {| role := user; content := um |} st in
  match ollama_chat P MODEL (system_turn :: history st0) (host st0) with
  | (Raise e, m) => (Raise e, after_request st0 m)
  | (Return reply1, m) =>
      let st1 := after_request st0 m in
      match extract_tool_calls reply1 with
      | [] => (Return reply1, appended {| role := assistant; content := reply1 |} st1)
      | _ :: _ =>
          match run_tools (extract_tool_calls reply1) [] st1 with
          | (Raise e, st2) => (Raise e, st2)
          | (Return tool_results, st2) =>
              let st3 :=
                appended {| role := user; content := results_message tool_results |}
                  (appended {| role := assistant; content := reply1 |} st2) in
              match ollama_chat P MODEL (system_turn :: history st3) (host st3) with
              | (Raise e, m') => (Raise e, after_request st3 m')
              | (Return reply2, m') =>
                  (Return reply2,
                   appended {| role := assistant; content := reply2 |}
                     (after_request st3 m'))
              end
          end
      end
  end.
Proof.
  cbv zeta. unfold chat. unfold bind at 1. unfold history_append at 1.
  fold (appended {| role := user; content := um |} st).
  set (st0 := appended _ st).
  unfold bind at 1. rewrite request_eq.
  destruct (ollama_chat P MODEL (system_turn :: history st0) (host st0))
    as [[reply1|e] m]; [|reflexivity].
  set (st1 := after_request st0 m).
  unfold bind at 1. unfold call at 1. unfold ret at 1.
  destruct (extract_tool_calls reply1) as [|n names]; [reflexivity|].
  unfold bind at 1. unfold bind at 1.
  destruct (run_tools (n :: names) [] st1) as [[tool_results|e] st2];
    [|reflexivity].
  unfold bind at 1. unfold history_append at 1.
  unfold bind at 1. unfold history_append at 1.
  rewrite request_eq. unfold appended, after_request.
  cbn [history host trace].
  match goal with |- context [ollama_chat P MODEL ?a ?b] =>
    destruct (ollama_chat P MODEL a b) as [[reply2|e] m'] end; reflexivity.
Qed.

(** Every call of [chat] goes one of the five ways. *)
Lemma chat_runs um st : chat_run um st (fst (chat um st)) (snd (chat um st)).
Proof.
  rewrite chat_eq. cbv zeta.
  set (st0 := appended {| role := user; content := um |} st).
  destruct (ollama_chat P MODEL (system_turn :: history st0) (host st0))
    as [[reply1|e] m] eqn:E1; [|now apply run_backend_failed].
  destruct (extract_tool_calls reply1) as [|n names] eqn:En;
    [now apply run_answered|].
  assert (Hne : extract_tool_calls reply1 <> []) by (rewrite En; discriminate).
  rewrite <- En in *.
  destruct (run_tools (extract_tool_calls reply1) [] (after_request st0 m))
    as [[tool_results|e] st2] eqn:Er; [|now apply (run_interrupted um st reply1 m)].
  match goal with |- context [ollama_chat P MODEL ?a ?b] =>
    destruct (ollama_chat P MODEL a b) as [[reply2|e] m'] eqn:E2 end.
  - now apply (run_explained um st reply1 m tool_results st2).
  - now apply (run_second_failed um st reply1 m tool_results st2).
Qed.

(** * The scanner *)

(** C5. A name is extracted exactly when the text holds a marker with
    that name that matches the grammar: the opening bracket, the word
    TOOL, a colon, white space or none, a name of one or more word
    characters, the closing bracket; the names extracted are those of
    the markers that the text reads as, in its order; the keyword in
    another case is not a marker, and a name keeps its case. *)
Theorem scanner_grammar :
  (forall text name,
      In name (extract_tool_calls text) <->
      exists pre ws post,
        text = pre ++ marker ws name ++ post /\ well_formed ws name) /\
  (forall text names, extract_tool_calls text = names <-> scanned text names) /\
  extract_tool_calls (lit "[tool: get_cpu_info] [Tool: get_cpu_info]") = [] /\
  extract_tool_calls (lit "[TOOL: Get_CPU_Info]") = [lit "Get_CPU_Info"].
Proof.
  split; [|split; [|split]].
  - intros text name. split.
    + apply extract_In_inv.
    + intros (pre & ws & post & -> & Hwf). now apply extract_In.
  - intros text names. split.
    + intros <-. apply scanned_extract.
    + apply extract_scanned.
  - vm_compute. reflexivity.
  - vm_compute. reflexivity.
Qed.

(** C6. The three markers of the text of the specification are
    extracted in their order, the repeated one twice; and in any text,
    a well-formed marker contributes its name between the names that
    the text before it and the text after it contribute. *)
Theorem scanner_order_and_duplicates :
  extract_tool_calls
    (lit "... [TOOL: get_cpu_info] ... [TOOL: get_memory_info] ... [TOOL: get_cpu_info] ...")
  = [lit "get_cpu_info"; lit "get_memory_info"; lit "get_cpu_info"] /\
  (forall pre ws name post,
      well_formed ws name ->
      extract_tool_calls (pre ++ marker ws name ++ post) =
      extract_tool_calls pre ++ name :: extract_tool_calls post).
Proof.
  split.
  - vm_compute. reflexivity.
  - intros pre ws name post Hwf. now apply extract_app_marker.
Qed.

(** C7. A text without a well-formed marker yields no tool call, and
    the scan of any text is a list of names, never an error; markers
    with an empty name, without the colon, with a blank inside the
    name, with a blank before the keyword or without the closing
    bracket are read as prose. *)
Theorem scanner_ignores_malformed :
  (forall text, ~ contains_marker text -> extract_tool_calls text = []) /\
  extract_tool_calls
    (lit "[TOOL: ] [TOOL get_cpu_info] [TOOL: get cpu] [ TOOL: x] [TOOL: get_cpu_info")
  = [].
Proof.
  split.
  - apply extract_no_marker.
  - vm_compute. reflexivity.
Qed.

(** C10. Every extracted name has at least one character, and each of
    its characters is a word character, which is neither white space
    nor a bracket nor a colon. *)
Theorem scanner_names_are_words text :
  Forall (fun name =>
            name <> [] /\
            Forall (fun c => is_word c = true /\ is_space c = false /\ ~ punct c)
                   name)
         (extract_tool_calls text).
Proof.
  apply Forall_forall. intros name Hin.
  apply extract_In_inv in Hin. destruct Hin as (pre & ws & post & _ & Hwf).
  destruct Hwf as (_ & Hne & Hw). split; [exact Hne|].
  apply Forall_forall. intros c Hc.
  rewrite forallb_forall in Hw. apply Hw in Hc.
  split; [exact Hc|]. split; [now apply word_not_space|now apply word_not_punct].
Qed.

(** * The dispatcher *)

(** C3. When the function of a registered tool raises an error, the
    dispatcher returns the text "Error executing NAME: MESSAGE"; when
    it returns a value that [json.dumps] renders with indent 2, the
    dispatcher returns that rendering, and when the rendering raises
    an error, the text of that error; and no error ever leaves the
    dispatcher: what it lets through is not an instance of
    [Exception]. *)
Theorem execute_tool_contains_errors name info st :
  lookup name TOOLS = Some info ->
  (forall e h,
      function info (host st) = (Raise e, h) -> is_Exception e = true ->
      execute_tool name st =
      (Return (lit "Error executing " ++ name ++ lit ": " ++ exn_str e),
       after_tool name st h)) /\
  (forall v h text,
      function info (host st) = (Return v, h) ->
      json_dumps P v 2 = Return text ->
      execute_tool name st = (Return text, after_tool name st h)) /\
  (forall v h e,
      function info (host st) = (Return v, h) ->
      json_dumps P v 2 = Raise e -> is_Exception e = true ->
      execute_tool name st =
      (Return (lit "Error executing " ++ name ++ lit ": " ++ exn_str e),
       after_tool name st h)) /\
  (forall e st', execute_tool name st = (Raise e, st') -> is_Exception e = false).
Proof.
  intros E. rewrite (execute_tool_registered _ _ _ E). repeat split.
  - intros e h -> He. now rewrite He.
  - intros v h text -> ->. reflexivity.
  - intros v h e -> -> He. now rewrite He.
  - intros e st'.
    destruct (function info (host st)) as [[v|e0] h].
    + destruct (json_dumps P v 2) as [text|e1]; [discriminate|].
      destruct (is_Exception e1) eqn:E1; [discriminate|].
      intros H. injection H as <- _. exact E1.
    + destruct (is_Exception e0) eqn:E0; [discriminate|].
      intros H. injection H as <- _. exact E0.
Qed.

(** C4. For a name that is not a key of the registry, the dispatcher
    returns the text "Unknown tool: NAME", raises nothing and leaves
    the state as it was. *)
Theorem execute_tool_unknown name st :
  ~ In name (map fst TOOLS) ->
  execute_tool name st = (Return (lit "Unknown tool: " ++ name), st).
Proof.
  intros H. apply execute_tool_unregistered. now apply lookup_None.
Qed.

(** * The orchestrator *)

(** C2. When the first reply holds no well-formed marker, [chat] makes
    one backend call and nothing else, appends the user turn and the
    reply as an assistant turn, and returns the reply. *)
Theorem chat_without_tool_calls um st reply m1 :
  let asked := {| role := user; content := um |} in
  let msgs1 := system_turn :: history st ++ [asked] in
  ollama_chat P MODEL msgs1 (host st) = (Return reply, m1) ->
  ~ contains_marker reply ->
  exists st',
    chat um st = (Return reply, st') /\
    history st' = history st ++ [asked; {| role := assistant; content := reply |}] /\
    trace st' = trace st ++ [BackendCall MODEL msgs1] /\
    backend_calls (trace st') = backend_calls (trace st) ++ [msgs1].
Proof.
  intros asked msgs1 Hcall Hno. rewrite chat_eq. cbv zeta.
  unfold appended at 1 2. cbn [history host]. fold asked. fold msgs1.
  rewrite Hcall. rewrite (extract_no_marker _ Hno).
  eexists. split; [reflexivity|].
  unfold appended, after_request. cbn [history host trace]. fold asked.
  repeat split.
  - now rewrite <- app_assoc.
  - rewrite backend_calls_app. reflexivity.
Qed.

(** [sep.join] writes the separator before each part but the first. *)
Lemma join_cons sep part parts :
  join sep (part :: parts) = part ++ concat (map (fun p => sep ++ p) parts).
Proof.
  revert part. induction parts as [|q parts IH]; intros part.
  - simpl. now rewrite app_nil_r.
  - change (join sep (part :: q :: parts)) with (part ++ sep ++ join sep (q :: parts)).
    rewrite IH. cbn [map concat]. now rewrite <- app_assoc.
Qed.

(** C1. When the first reply holds a well-formed marker, the tools run
    to their end and the backend answers again, [chat] makes two
    backend calls, appends four turns (the user turn, the first reply
    as it came, a user turn with the result blocks of the extracted
    names in their order, the second reply) and returns the second
    reply. The text of the third turn is the opening line, an empty
    line, the blocks "Results from NAME:", line feed, payload, with an
    empty line between two blocks, an empty line and the closing
    request. *)
Theorem chat_with_tool_calls um st reply1 m1 tool_results st2 reply2 m2 :
  let asked := {| role := user; content := um |} in
  let msgs1 := system_turn :: history st ++ [asked] in
  let st1 := {| history := history st ++ [asked]; host := m1;
                trace := trace st ++ [BackendCall MODEL msgs1] |} in
  let added3 := [asked;
                 {| role := assistant; content := reply1 |};
                 {| role := user; content := results_message tool_results |}] in
  let msgs2 := system_turn :: history st ++ added3 in
  ollama_chat P MODEL msgs1 (host st) = (Return reply1, m1) ->
  contains_marker reply1 ->
  run_tools (extract_tool_calls reply1) [] st1 = (Return tool_results, st2) ->
  ollama_chat P MODEL msgs2 (host st2) = (Return reply2, m2) ->
  exists st',
    chat um st = (Return reply2, st') /\
    history st' =
      history st ++ added3 ++ [{| role := assistant; content := reply2 |}] /\
    backend_calls (trace st') = backend_calls (trace st) ++ [msgs1; msgs2] /\
    exists payloads,
      dispatched (extract_tool_calls reply1) st1 payloads st2 /\
      length payloads = length (extract_tool_calls reply1) /\
      tool_results = result_blocks (extract_tool_calls reply1) payloads /\
      exists block blocks,
        map (fun np => lit "Results from " ++ fst np ++ lit ":" ++ [10%N] ++ snd np)
            (combine (extract_tool_calls reply1) payloads)
        = block :: blocks /\
        results_message tool_results =
          lit "Here are the tool results:" ++ [10%N; 10%N]
          ++ block ++ concat (map (fun b => [10%N; 10%N] ++ b) blocks)
          ++ [10%N; 10%N]
          ++ lit "Please explain these results to me in a friendly, easy-to-understand way.".
Proof.
  intros asked msgs1 st1 added3 msgs2 Hcall1 Hmark Hrun Hcall2.
  apply extract_nonempty_iff in Hmark.
  destruct (run_tools_frame (extract_tool_calls reply1) [] st1) as [Hh Hb].
  rewrite Hrun in Hh, Hb. cbn [snd] in Hh, Hb.
  assert (Hh2 : history st2 = history st ++ [asked]) by exact Hh.
  assert (Hb2 : backend_calls (trace st2) = backend_calls (trace st) ++ [msgs1]).
  { rewrite Hb. unfold st1. cbn [trace]. now rewrite backend_calls_app. }
  assert (Hmsgs : system_turn :: ((history st2
            ++ [{| role := assistant; content := reply1 |}])
            ++ [{| role := user; content := results_message tool_results |}])
          = msgs2).
  { unfold msgs2, added3. rewrite Hh2. now rewrite <- !app_assoc. }
  rewrite chat_eq. cbv zeta.
  unfold appended at 1 2. cbn [history host]. fold asked. fold msgs1.
  rewrite Hcall1.
  change (after_request (appended asked st) m1) with st1.
  destruct (extract_tool_calls reply1) as [|n names] eqn:En; [congruence|].
  rewrite Hrun. unfold appended at 1 2 3 4. cbn [history host].
  rewrite Hmsgs, Hcall2.
  eexists. split; [reflexivity|].
  unfold appended, after_request. cbn [history host trace].
  rewrite Hmsgs. split; [|split].
  - rewrite Hh2. unfold added3. now rewrite <- !app_assoc.
  - rewrite backend_calls_app, Hb2. rewrite <- app_assoc. reflexivity.
  - destruct (run_tools_dispatched _ _ _ _ _ Hrun) as (payloads & Hd & Hr).
    pose proof (dispatched_length _ _ _ _ Hd) as Hl.
    exists payloads. split; [exact Hd|]. split; [exact Hl|].
    split; [exact Hr|].
    destruct payloads as [|payload payloads]; [discriminate Hl|].
    exists (result_block n payload), (result_blocks names payloads).
    split; [reflexivity|].
    rewrite Hr. unfold results_message. cbv zeta.
    change ([] ++ result_blocks (n :: names) (payload :: payloads))
      with (result_block n payload :: result_blocks names payloads).
    rewrite join_cons, <- !app_assoc. reflexivity.
Qed.

(** C8. Each request sends the system turn followed by the history
    as it is stored then, and stores nothing. Whatever the outcome of
    [chat], the history after it is the history before it with the user
    turn and further turns appended, none of them with the system role,
    so nothing was removed or edited; its backend calls are one or two,
    each with the system turn followed by an initial part of the final
    history; and the system turn is rendered from the registry with a
    line "- name: description" per tool, in the order of the
    registry, the lines separated by line feeds (code point 10) and set
    between the two fixed parts of the prompt. *)
Theorem chat_messages_and_history um st :
  let asked := {| role := user; content := um |} in
  let st' := snd (chat um st) in
  let msgs1 := system_turn :: history st ++ [asked] in
  (forall s,
      history (snd (request s)) = history s /\
      backend_calls (trace (snd (request s)))
      = backend_calls (trace s) ++ [system_turn :: history s]) /\
  (exists added,
      history st' = history st ++ asked :: added /\
      Forall (fun t => role t <> system) (asked :: added)) /\
  (exists new,
      backend_calls (trace st') = backend_calls (trace st) ++ new /\
      (new = [msgs1] \/
       exists reply1 tool_results,
         new = [msgs1;
                system_turn :: history st
                ++ [asked;
                    {| role := assistant; content := reply1 |};
                    {| role := user; content := results_message tool_results |}]]) /\
      Forall (fun msgs => exists a b,
                  msgs = system_turn :: history st ++ asked :: a /\
                  history st' = (history st ++ asked :: a) ++ b) new) /\
  role system_turn = system /\
  (let line := fun entry : str * tool =>
                 lit "- " ++ fst entry ++ lit ": " ++ description (snd entry) in
   forall first others, TOOLS = first :: others ->
     format_tool_descriptions
     = line first ++ concat (map (fun entry => [10%N] ++ line entry) others)) /\
  format_tool_descriptions =
    lit "- get_system_info: Get basic system information like OS, hostname, and processor"
    ++ [10%N]
    ++ lit "- get_cpu_info: Get CPU usage, core count, and frequency information"
    ++ [10%N]
    ++ lit "- get_memory_info: Get RAM and swap memory usage"
    ++ [10%N]
    ++ lit "- get_disk_info: Get disk partition and storage usage information"
    ++ [10%N]
    ++ lit "- get_network_info: Get network interfaces, IP addresses, and data transfer stats"
    ++ [10%N]
    ++ lit "- get_process_info: Get top processes by memory usage"
    ++ [10%N]
    ++ lit "- get_battery_info: Get battery status and charge level (for laptops)"
    ++ [10%N]
    ++ lit "- get_uptime: Get system boot time and uptime duration" /\
  content system_turn =
    lit "You are a helpful assistant that runs locally on the user's machine. "
    ++ [10%N]
    ++ lit "You have access to tools that can retrieve information about the system you're running on."
    ++ [10%N; 10%N]
    ++ lit "Available tools:"
    ++ [10%N]
    ++ format_tool_descriptions
    ++ [10%N; 10%N]
    ++ lit "When the user asks about system information, use the appropriate tool by responding with:"
    ++ [10%N]
    ++ lit "[TOOL: tool_name]"
    ++ [10%N; 10%N]
    ++ lit "For example:"
    ++ [10%N]
    ++ lit "- If asked about CPU usage, respond with [TOOL: get_cpu_info]"
    ++ [10%N]
    ++ lit "- If asked about memory/RAM, respond with [TOOL: get_memory_info]"
    ++ [10%N]
    ++ lit "- If asked about disk space, respond with [TOOL: get_disk_info]"
    ++ [10%N]
    ++ lit "- If asked about network, respond with [TOOL: get_network_info]"
    ++ [10%N]
    ++ lit "- If asked about running processes, respond with [TOOL: get_process_info]"
    ++ [10%N]
    ++ lit "- If asked about battery, respond with [TOOL: get_battery_info]"
    ++ [10%N]
    ++ lit "- If asked about uptime or boot time, respond with [TOOL: get_uptime]"
    ++ [10%N]
    ++ lit "- If asked about general system info (OS, hostname), respond with [TOOL: get_system_info]"
    ++ [10%N; 10%N]
    ++ lit "After receiving tool results, explain them to the user in a friendly, clear way."
    ++ [10%N]
    ++ lit "You can use multiple tools if needed to answer complex questions."
    ++ [10%N].
Proof.
  intros asked st' msgs1.
  assert (Hreq : forall s m,
             backend_calls (trace (after_request s m))
             = backend_calls (trace s) ++ [system_turn :: history s]).
  { intros s m. unfold after_request. cbn [trace].
    now rewrite backend_calls_app. }
  split; [|split; [|split; [|split; [|split; [|split]]]]];
    [| | |reflexivity| |reflexivity|].
  4: { intros line first others E. unfold format_tool_descriptions. cbv zeta.
       rewrite E. cbn [map]. rewrite join_cons.
       f_equal; [now destruct first|]. rewrite map_map. f_equal.
       apply map_ext. intros [name info]. reflexivity. }
  4: { unfold system_turn, SYSTEM_PROMPT_format. cbn [content].
       generalize format_tool_descriptions. intros tools.
       unfold prompt_head, prompt_tail, SYSTEM_PROMPT. cbn [fst snd].
       cbn [join nl app]. rewrite <- !app_assoc. reflexivity. }
  - intros s. rewrite request_eq.
    destruct (ollama_chat P MODEL (system_turn :: history s) (host s)) as [r m].
    cbn [snd]. split; [reflexivity|apply Hreq].
  - pose proof (chat_runs um st) as R. fold st' in R.
    destruct R as [e m st0 E1|reply m st0 E1 En|reply1 m e st2 st0 E1 En Er
                  |reply1 m res st2 e m' st0 st3 E1 En Er E2
                  |reply1 m res st2 reply2 m' st0 st3 E1 En Er E2].
    + exists []. split; [reflexivity|]. repeat constructor; discriminate.
    + exists [{| role := assistant; content := reply |}].
      split; [cbn; now rewrite <- app_assoc|]. repeat constructor; discriminate.
    + destruct (run_tools_frame (extract_tool_calls reply1) [] (after_request st0 m))
        as [Hh _]. rewrite Er in Hh. cbn [snd] in Hh.
      exists []. split; [exact Hh|]. repeat constructor; discriminate.
    + destruct (run_tools_frame (extract_tool_calls reply1) [] (after_request st0 m))
        as [Hh _]. rewrite Er in Hh. cbn [snd] in Hh.
      exists [{| role := assistant; content := reply1 |};
              {| role := user; content := results_message res |}].
      split; [|repeat constructor; discriminate].
      subst st3. cbn. rewrite Hh. cbn. now rewrite <- !app_assoc.
    + destruct (run_tools_frame (extract_tool_calls reply1) [] (after_request st0 m))
        as [Hh _]. rewrite Er in Hh. cbn [snd] in Hh.
      exists [{| role := assistant; content := reply1 |};
              {| role := user; content := results_message res |};
              {| role := assistant; content := reply2 |}].
      split; [|repeat constructor; discriminate].
      subst st3. cbn. rewrite Hh. cbn. now rewrite <- !app_assoc.
  - pose proof (chat_runs um st) as R. fold st' in R.
    destruct R as [e m st0 E1|reply m st0 E1 En|reply1 m e st2 st0 E1 En Er
                  |reply1 m res st2 e m' st0 st3 E1 En Er E2
                  |reply1 m res st2 reply2 m' st0 st3 E1 En Er E2].
    + exists [msgs1]. split; [apply Hreq|]. split; [now left|].
      constructor; [|constructor]. exists [], [].
      split; [reflexivity|]. cbn. now rewrite app_nil_r.
    + exists [msgs1]. split; [apply Hreq|]. split; [now left|].
      constructor; [|constructor].
      exists [], [{| role := assistant; content := reply |}].
      split; [reflexivity|]. reflexivity.
    + destruct (run_tools_frame (extract_tool_calls reply1) [] (after_request st0 m))
        as [Hh Hb]. rewrite Er in Hh, Hb. cbn [snd] in Hh, Hb.
      exists [msgs1]. split; [rewrite Hb; apply Hreq|]. split; [now left|].
      constructor; [|constructor]. exists [], [].
      split; [reflexivity|]. rewrite Hh. cbn. now rewrite app_nil_r.
    + destruct (run_tools_frame (extract_tool_calls reply1) [] (after_request st0 m))
        as [Hh Hb]. rewrite Er in Hh, Hb. cbn [snd] in Hh, Hb.
      assert (H3 : history st3
                   = history st ++ [asked; {| role := assistant; content := reply1 |};
                                    {| role := user; content := results_message res |}]).
      { subst st3. cbn. rewrite Hh. cbn. now rewrite <- !app_assoc. }
      eexists. split; [|split; [right; exists reply1, res; reflexivity|]].
      * rewrite Hreq, H3. subst st3. cbn [appended trace]. rewrite Hb, Hreq.
        now rewrite <- app_assoc.
      * constructor; [|constructor; [|constructor]].
        -- exists [], [{| role := assistant; content := reply1 |};
                       {| role := user; content := results_message res |}].
           split; [reflexivity|]. cbn [after_request history]. rewrite H3.
           now rewrite <- app_assoc.
        -- exists [{| role := assistant; content := reply1 |};
                   {| role := user; content := results_message res |}], [].
           split; [reflexivity|]. cbn [after_request history].
           now rewrite H3, app_nil_r.
    + destruct (run_tools_frame (extract_tool_calls reply1) [] (after_request st0 m))
        as [Hh Hb]. rewrite Er in Hh, Hb. cbn [snd] in Hh, Hb.
      assert (H3 : history st3
                   = history st ++ [asked; {| role := assistant; content := reply1 |};
                                    {| role := user; content := results_message res |}]).
      { subst st3. cbn. rewrite Hh. cbn. now rewrite <- !app_assoc. }
      eexists. split; [|split; [right; exists reply1, res; reflexivity|]].
      * cbn [appended trace]. rewrite Hreq, H3. subst st3. cbn [appended trace].
        rewrite Hb, Hreq. now rewrite <- app_assoc.
      * constructor; [|constructor; [|constructor]].
        -- exists [], [{| role := assistant; content := reply1 |};
                       {| role := user; content := results_message res |};
                       {| role := assistant; content := reply2 |}].
           split; [reflexivity|]. cbn [appended after_request history].
           rewrite H3. now rewrite <- !app_assoc.
        -- exists [{| role := assistant; content := reply1 |};
                   {| role := user; content := results_message res |}],
                  [{| role := assistant; content := reply2 |}].
           split; [reflexivity|]. cbn [appended after_request history].
           now rewrite H3.
Qed.

(** * Further properties of chat.py *)

(** ** The scanner and the registry *)

Lemma no_marker_in_nil : ~ contains_marker [].
Proof. apply extract_empty_no_marker. apply extract_nil. Qed.

(** X1. Markers written one after the other for a list of identifiers,
    with any white space after the colon, scan back to that list. *)
Theorem markers_round_trip names ws :
  Forall identifier names ->
  forallb is_space ws = true ->
  extract_tool_calls (concat (map (marker ws) names)) = names.
Proof.
  intros Hn Hs. induction Hn as [|n names [Hne Hw] _ IH]; cbn [map concat].
  - apply extract_nil.
  - assert (Hwf : well_formed ws n) by (split; [exact Hs|split; assumption]).
    pose proof (extract_app_marker ws n (concat (map (marker ws) names)) Hwf [])
      as H.
    cbn [app] in H. rewrite H, extract_nil, IH. reflexivity.
Qed.

Lemma lookup_first {V : Type} name (v : V) d :
  lookup name d = Some v -> In (name, v) d.
Proof.
  induction d as [|[k w] d IH]; simpl; [discriminate|].
  destruct (str_eqb name k) eqn:E.
  - apply str_eqb_eq in E. intros H. injection H as ->. subst k. now left.
  - intros H. right. now apply IH.
Qed.

Lemma lookup_NoDup {V : Type} name (v : V) d :
  NoDup (map fst d) -> In (name, v) d -> lookup name d = Some v.
Proof.
  induction d as [|[k w] d IH]; simpl; intros Hd Hin; [destruct Hin|].
  inversion Hd as [|? ? Hk Hd']; subst.
  destruct Hin as [Hin|Hin].
  - injection Hin as -> ->.
    assert (E : str_eqb name name = true) by now apply str_eqb_eq.
    now rewrite E.
  - destruct (str_eqb name k) eqn:E.
    + apply str_eqb_eq in E. subst k. exfalso. apply Hk.
      apply (in_map fst) in Hin. exact Hin.
    + now apply IH.
Qed.

Lemma TOOLS_keys :
  map fst TOOLS =
  [lit "get_system_info"; lit "get_cpu_info"; lit "get_memory_info";
   lit "get_disk_info"; lit "get_network_info"; lit "get_process_info";
   lit "get_battery_info"; lit "get_uptime"].
Proof. reflexivity. Qed.

Lemma TOOLS_NoDup : NoDup (map fst TOOLS).
Proof.
  rewrite TOOLS_keys. vm_compute.
  repeat (constructor; [simpl; intuition discriminate|]). constructor.
Qed.

Lemma TOOLS_identifiers : Forall identifier (map fst TOOLS).
Proof.
  rewrite TOOLS_keys.
  repeat (constructor; [split; [discriminate|vm_compute; reflexivity]|]).
  constructor.
Qed.

(** X2. Every registered tool can be asked for: its name is an
    identifier, the marker that the system prompt teaches for it scans
    to that name alone, and the dispatcher finds its entry. *)
Theorem registered_tools_are_requestable name info :
  In (name, info) TOOLS ->
  identifier name /\
  extract_tool_calls (lit "[TOOL: " ++ name ++ lit "]") = [name] /\
  lookup name TOOLS = Some info.
Proof.
  intros Hin.
  assert (Hid : identifier name).
  { pose proof TOOLS_identifiers as H. rewrite Forall_forall in H.
    apply H. apply (in_map fst) in Hin. exact Hin. }
  split; [exact Hid|]. split; [|now apply lookup_NoDup; [apply TOOLS_NoDup|]].
  assert (Hwf : well_formed (lit " ") name)
    by (split; [reflexivity|exact Hid]).
  pose proof (extract_app_marker (lit " ") name [] Hwf []) as H.
  cbn [app] in H. rewrite extract_nil, app_nil_r in H. unfold marker in H.
  change (lit "[TOOL: " ++ name ++ lit "]")
    with (lit "[TOOL:" ++ lit " " ++ name ++ [93%N]).
  exact H.
Qed.

(** X3. The markers that the rendered system prompt shows to the
    model are the placeholder and then one example per registered tool:
    the prompt names every tool of the registry and no other. *)
Theorem prompt_examples_are_the_registry :
  let examples :=
    [lit "get_cpu_info"; lit "get_memory_info"; lit "get_disk_info";
     lit "get_network_info"; lit "get_process_info"; lit "get_battery_info";
     lit "get_uptime"; lit "get_system_info"] in
  extract_tool_calls (content system_turn) = lit "tool_name" :: examples /\
  (forall name, In name examples <-> In name (map fst TOOLS)).
Proof.
  intros examples. split; [vm_compute; reflexivity|].
  intros name. rewrite TOOLS_keys. subst examples. simpl. tauto.
Qed.

(** ** The dispatcher and the loop, seen from outside *)

Lemma registered_lookup name :
  registered name = true <-> exists info, lookup name TOOLS = Some info.
Proof.
  unfold registered. destruct (lookup name TOOLS) as [info|]; split;
    try reflexivity; try discriminate; eauto.
  intros (info & H). discriminate.
Qed.

Lemma execute_tool_trace name st :
  trace (snd (execute_tool name st))
  = trace st ++ (if registered name then [ToolCall name] else []).
Proof.
  unfold registered.
  destruct (lookup name TOOLS) as [info|] eqn:E.
  - rewrite (execute_tool_registered _ _ _ E).
    destruct (function info (host st)) as [[v|e] h].
    + destruct (json_dumps P v 2) as [text|e]; [reflexivity|].
      now destruct (is_Exception e).
    + now destruct (is_Exception e).
  - rewrite (execute_tool_unregistered _ _ E). cbn [snd].
    now rewrite app_nil_r.
Qed.

(** X4. A dispatch calls the function of a registered tool once and
    does nothing else to the session; for a name that is not registered
    it leaves the session as it was. It never stores a turn and never
    calls the backend. *)
Theorem execute_tool_effect name st :
  let st' := snd (execute_tool name st) in
  history st' = history st /\
  backend_calls (trace st') = backend_calls (trace st) /\
  (registered name = true -> trace st' = trace st ++ [ToolCall name]) /\
  (registered name = false -> st' = st).
Proof.
  intros st'. destruct (execute_tool_frame name st) as [Hh Hb].
  split; [exact Hh|]. split; [exact Hb|]. subst st'. unfold registered.
  destruct (lookup name TOOLS) as [info|] eqn:E.
  - split; [intros _|discriminate].
    rewrite (execute_tool_registered _ _ _ E).
    destruct (function info (host st)) as [[v|e] h].
    + destruct (json_dumps P v 2) as [text|e]; [reflexivity|].
      now destruct (is_Exception e).
    + now destruct (is_Exception e).
  - split; [discriminate|intros _].
    now rewrite (execute_tool_unregistered _ _ E).
Qed.

Lemma run_tools_trace names : forall acc st results st',
  run_tools names acc st = (Return results, st') ->
  trace st' = trace st ++ tool_events names /\ history st' = history st.
Proof.
  induction names as [|n names IH]; intros acc st results st' H.
  - injection H as <- <-. unfold tool_events. simpl.
    rewrite app_nil_r. now split.
  - rewrite run_tools_cons in H.
    pose proof (execute_tool_trace n (printed n st)) as Ht.
    destruct (execute_tool_frame n (printed n st)) as [Hh _].
    destruct (execute_tool n (printed n st)) as [[payload|e] st2] eqn:E;
      [|discriminate].
    cbn [snd] in Ht, Hh. apply IH in H. destruct H as (Ht' & Hh').
    split.
    + rewrite Ht', Ht. unfold printed, tool_events. cbn [trace map concat].
      rewrite <- !app_assoc. reflexivity.
    + rewrite Hh', Hh. reflexivity.
Qed.

Lemma run_tools_length names : forall acc st results st',
  run_tools names acc st = (Return results, st') ->
  length results = length acc + length names.
Proof.
  induction names as [|n names IH]; intros acc st results st' H.
  - injection H as <- <-. simpl. lia.
  - rewrite run_tools_cons in H.
    destruct (execute_tool n (printed n st)) as [[payload|e] st2];
      [|discriminate].
    apply IH in H. rewrite H, length_app. simpl. lia.
Qed.

(** X5. When the loop over the names returns, it has printed the line
    of each name and called the function of each registered one, name
    by name in the order of the list, a repeated name again each time;
    it returns what the accumulator held and then, for each name in
    turn, the block "Results from NAME:", line feed, and what the
    dispatch of that name returned; the history is untouched. *)
Theorem run_tools_effect names acc st results st' :
  run_tools names acc st = (Return results, st') ->
  trace st' = trace st ++ tool_events names /\
  length results = length acc + length names /\
  history st' = history st /\
  exists payloads,
    dispatched names st payloads st' /\
    length payloads = length names /\
    results =
      acc ++ map (fun np => lit "Results from " ++ fst np ++ lit ":"
                            ++ [10%N] ++ snd np)
                 (combine names payloads).
Proof.
  intros H. destruct (run_tools_trace _ _ _ _ _ H) as [Ht Hh].
  split; [exact Ht|]. split; [exact (run_tools_length _ _ _ _ _ H)|].
  split; [exact Hh|].
  destruct (run_tools_dispatched _ _ _ _ _ H) as (payloads & Hd & Hr).
  exists payloads. split; [exact Hd|].
  split; [exact (dispatched_length _ _ _ _ Hd)|exact Hr].
Qed.

(** ** The ways [chat] fails *)

Lemma execute_tool_raises name st e st' :
  execute_tool name st = (Raise e, st') -> is_Exception e = false.
Proof.
  destruct (lookup name TOOLS) as [info|] eqn:El.
  - rewrite (execute_tool_registered _ _ _ El).
    destruct (function info (host st)) as [[v|e0] h].
    + destruct (json_dumps P v 2) as [text|e1]; [discriminate|].
      destruct (is_Exception e1) eqn:E1; [discriminate|].
      intros H. injection H as <- _. exact E1.
    + destruct (is_Exception e0) eqn:E0; [discriminate|].
      intros H. injection H as <- _. exact E0.
  - rewrite (execute_tool_unregistered _ _ El). discriminate.
Qed.

Lemma run_tools_raises names : forall acc st e st',
  run_tools names acc st = (Raise e, st') -> is_Exception e = false.
Proof.
  induction names as [|n names IH]; intros acc st e st' H; [discriminate|].
  rewrite run_tools_cons in H.
  destruct (execute_tool n (printed n st)) as [[payload|e0] st2] eqn:E.
  - now apply IH in H.
  - injection H as <- _. exact (execute_tool_raises _ _ _ _ E).
Qed.

(** X6. When the first request fails, [chat] raises what the backend
    raised, after one backend call, and the history holds the user turn
    that was never answered. *)
Theorem chat_first_request_fails um st e m :
  let asked := {| role := user; content := um |} in
  let msgs1 := system_turn :: history st ++ [asked] in
  ollama_chat P MODEL msgs1 (host st) = (Raise e, m) ->
  exists st',
    chat um st = (Raise e, st') /\
    history st' = history st ++ [asked] /\
    trace st' = trace st ++ [BackendCall MODEL msgs1].
Proof.
  intros asked msgs1 H. rewrite chat_eq. cbv zeta.
  unfold appended at 1 2. cbn [history host]. fold asked. fold msgs1.
  rewrite H. eexists. split; [reflexivity|]. split; reflexivity.
Qed.

(** X7. When a tool is cut short, [chat] raises what cut it short,
    which is no error; the history holds the user turn only, the reply
    that asked for the tools is not stored, and the backend was called
    once. *)
Theorem chat_tool_interrupted um st reply1 m1 e st2 :
  let asked := {| role := user; content := um |} in
  let msgs1 := system_turn :: history st ++ [asked] in
  let st1 := {| history := history st ++ [asked]; host := m1;
                trace := trace st ++ [BackendCall MODEL msgs1] |} in
  ollama_chat P MODEL msgs1 (host st) = (Return reply1, m1) ->
  run_tools (extract_tool_calls reply1) [] st1 = (Raise e, st2) ->
  chat um st = (Raise e, st2) /\
  is_Exception e = false /\
  history st2 = history st ++ [asked] /\
  backend_calls (trace st2) = backend_calls (trace st) ++ [msgs1].
Proof.
  intros asked msgs1 st1 Hcall Hrun.
  destruct (run_tools_frame (extract_tool_calls reply1) [] st1) as [Hh Hb].
  rewrite Hrun in Hh, Hb. cbn [snd] in Hh, Hb.
  split; [|split; [exact (run_tools_raises _ _ _ _ _ Hrun)|split; [exact Hh|]]].
  - rewrite chat_eq. cbv zeta.
    unfold appended at 1 2. cbn [history host]. fold asked. fold msgs1.
    rewrite Hcall.
    change (after_request (appended asked st) m1) with st1.
    destruct (extract_tool_calls reply1) as [|n names] eqn:En;
      [discriminate Hrun|].
    now rewrite Hrun.
  - rewrite Hb. unfold st1. cbn [trace]. now rewrite backend_calls_app.
Qed.

(** X8. When the second request fails, [chat] raises what the backend
    raised, after two backend calls, and the history holds three more
    turns: the user turn, the first reply and the turn with the tool
    results, with no answer after it. *)
Theorem chat_second_request_fails um st reply1 m1 tool_results st2 e m2 :
  let asked := {| role := user; content := um |} in
  let msgs1 := system_turn :: history st ++ [asked] in
  let st1 := {| history := history st ++ [asked]; host := m1;
                trace := trace st ++ [BackendCall MODEL msgs1] |} in
  let added3 := [asked;
                 {| role := assistant; content := reply1 |};
                 {| role := user; content := results_message tool_results |}] in
  let msgs2 := system_turn :: history st ++ added3 in
  ollama_chat P MODEL msgs1 (host st) = (Return reply1, m1) ->
  extract_tool_calls reply1 <> [] ->
  run_tools (extract_tool_calls reply1) [] st1 = (Return tool_results, st2) ->
  ollama_chat P MODEL msgs2 (host st2) = (Raise e, m2) ->
  exists st',
    chat um st = (Raise e, st') /\
    history st' = history st ++ added3 /\
    backend_calls (trace st') = backend_calls (trace st) ++ [msgs1; msgs2].
Proof.
  intros asked msgs1 st1 added3 msgs2 Hcall1 Hne Hrun Hcall2.
  destruct (run_tools_frame (extract_tool_calls reply1) [] st1) as [Hh Hb].
  rewrite Hrun in Hh, Hb. cbn [snd] in Hh, Hb.
  assert (Hh2 : history st2 = history st ++ [asked]) by exact Hh.
  assert (Hb2 : backend_calls (trace st2) = backend_calls (trace st) ++ [msgs1]).
  { rewrite Hb. unfold st1. cbn [trace]. now rewrite backend_calls_app. }
  assert (Hmsgs : system_turn :: ((history st2
            ++ [{| role := assistant; content := reply1 |}])
            ++ [{| role := user; content := results_message tool_results |}])
          = msgs2).
  { unfold msgs2, added3. rewrite Hh2. now rewrite <- !app_assoc. }
  rewrite chat_eq. cbv zeta.
  unfold appended at 1 2. cbn [history host]. fold asked. fold msgs1.
  rewrite Hcall1.
  change (after_request (appended asked st) m1) with st1.
  destruct (extract_tool_calls reply1) as [|n names] eqn:En; [congruence|].
  rewrite Hrun. unfold appended at 1 2 3 4. cbn [history host].
  rewrite Hmsgs, Hcall2.
  eexists. split; [reflexivity|].
  unfold appended, after_request. cbn [history host trace].
  rewrite Hmsgs. split.
  - rewrite Hh2. unfold added3. now rewrite <- !app_assoc.
  - rewrite backend_calls_app, Hb2. rewrite <- app_assoc. reflexivity.
Qed.


(** X10. When [chat] answers with the help of tools, what it does to
    the outside is, in this order: the first request, then for each
    extracted name its line and, if it is registered, the call of its
    function, then the second request. The names of the second reply
    set nothing in motion. *)
Theorem chat_order_of_effects um st reply1 m1 tool_results st2 reply2 m2 :
  let asked := {| role := user; content := um |} in
  let msgs1 := system_turn :: history st ++ [asked] in
  let st1 := {| history := history st ++ [asked]; host := m1;
                trace := trace st ++ [BackendCall MODEL msgs1] |} in
  let added3 := [asked;
                 {| role := assistant; content := reply1 |};
                 {| role := user; content := results_message tool_results |}] in
  let msgs2 := system_turn :: history st ++ added3 in
  ollama_chat P MODEL msgs1 (host st) = (Return reply1, m1) ->
  extract_tool_calls reply1 <> [] ->
  run_tools (extract_tool_calls reply1) [] st1 = (Return tool_results, st2) ->
  ollama_chat P MODEL msgs2 (host st2) = (Return reply2, m2) ->
  trace (snd (chat um st))
  = trace st ++ [BackendCall MODEL msgs1]
    ++ tool_events (extract_tool_calls reply1)
    ++ [BackendCall MODEL msgs2].
Proof.
  intros asked msgs1 st1 added3 msgs2 Hcall1 Hne Hrun Hcall2.
  destruct (run_tools_trace _ _ _ _ _ Hrun) as (Ht & Hh).
  assert (Hmsgs : system_turn :: ((history st2
            ++ [{| role := assistant; content := reply1 |}])
            ++ [{| role := user; content := results_message tool_results |}])
          = msgs2).
  { unfold msgs2, added3. rewrite Hh. unfold st1. cbn [history].
    now rewrite <- !app_assoc. }
  rewrite chat_eq. cbv zeta.
  unfold appended at 1 2. cbn [history host]. fold asked. fold msgs1.
  rewrite Hcall1.
  change (after_request (appended asked st) m1) with st1.
  destruct (extract_tool_calls reply1) as [|n names] eqn:En; [congruence|].
  rewrite Hrun. unfold appended at 1 2 3 4. cbn [history host].
  rewrite Hmsgs, Hcall2. cbn [snd].
  unfold appended, after_request. cbn [history host trace].
  rewrite Hmsgs, Ht. unfold st1. cbn [trace].
  rewrite <- !app_assoc. reflexivity.
Qed.

(** * The session loop *)

Lemma mem_In x names : mem x names = true <-> In x names.
Proof.
  unfold mem. rewrite existsb_exists. split.
  - intros (y & Hy & E). apply str_eqb_eq in E. now subst.
  - intros H. exists x. split; [exact H|]. now apply str_eqb_eq.
Qed.

Lemma before_colon_app a r :
  ~ In 58%N a -> before_colon (a ++ 58%N :: r) = a.
Proof.
  induction a as [|c a IH]; intros H; simpl; [reflexivity|].
  destruct (c =? 58)%N eqn:E.
  - apply N.eqb_eq in E. exfalso. apply H. now left.
  - f_equal. apply IH. intros Hin. apply H. now right.
Qed.

(** X11. The model is pulled exactly when no installed model has the
    name of the model before its first colon: any tag of the model
    counts as the model, and the separate test for the tag "latest"
    never changes the decision. *)
Theorem pull_decided_by_names names :
  needs_pull names = true <->
  Forall (fun n => before_colon n <> MODEL) names.
Proof.
  unfold needs_pull. cbv zeta. rewrite andb_true_iff, !negb_true_iff.
  rewrite Forall_forall. split.
  - intros [H _] n Hn E.
    assert (Hm : mem MODEL (map before_colon names) = true).
    { apply mem_In. rewrite <- E. now apply in_map. }
    congruence.
  - intros H.
    assert (H1 : mem MODEL (map before_colon names) = false).
    { destruct (mem MODEL (map before_colon names)) eqn:E; [|reflexivity].
      apply mem_In in E. apply in_map_iff in E.
      destruct E as (n & En & Hn). exfalso. exact (H n Hn En). }
    split; [exact H1|].
    destruct (mem (MODEL ++ lit ":latest") names) eqn:E; [|reflexivity].
    apply mem_In in E. exfalso. apply (H _ E).
    change (MODEL ++ lit ":latest") with (MODEL ++ 58%N :: lit "latest").
    apply before_colon_app. vm_compute. intuition discriminate.
Qed.

(** The state after a line is printed. *)
Lemma console_print_eq line st :
  console_print line st
  = (Return tt, {| history := history st; host := host st;
                   trace := trace st ++ [ConsolePrint line] |}).
Proof. reflexivity. Qed.

Lemma session_cons asked rest st :
  session (asked :: rest) st =
  match round asked st with
  | (Return (Break e), st') => (Return e, st')
  | (Return Continue, st') => session rest st'
  | (Raise e, st') => (Raise e, st')
  end.
Proof.
  cbn [session]. unfold bind.
  destruct (round asked st) as [[[e|]|e] st']; reflexivity.
Qed.

(** What a round does with a line that is neither a quit word nor
    blank, by the outcome of [chat]. *)
Lemma round_chat s st :
  is_quit s = false -> blank s = false ->
  round (Return s) st =
  match chat s st with
  | (Return response, st1) =>
      (Return Continue,
       {| history := history st1; host := host st1;
          trace := trace st1 ++ [ConsolePrint bot_line; ConsolePrint response] |})
  | (Raise e, st1) =>
      if is_KeyboardInterrupt Sh e then
        (Return (Break Interrupted),
         {| history := history st1; host := host st1;
            trace := trace st1 ++ [ConsolePrint interrupted_line] |})
      else if is_Exception e then
        (Return Continue,
         {| history := history st1; host := host st1;
            trace := trace st1 ++ [ConsolePrint (error_line e)] |})
      else (Raise e, st1)
  end.
Proof.
  intros Hq Hb. unfold round, handled. unfold bind at 1. unfold lift at 1.
  rewrite Hq, Hb. unfold bind at 1.
  destruct (chat s st) as [[response|e] st1].
  - unfold bind, console_print, log, ret. cbn [history host trace].
    rewrite <- app_assoc. reflexivity.
  - destruct (is_KeyboardInterrupt Sh e); [reflexivity|].
    destruct (is_Exception e); reflexivity.
Qed.

Lemma lower_ascii s :
  forallb (fun c => (c <? 128)%N) s = true -> lower s = map ascii_lower s.
Proof. intros H. unfold lower. now rewrite H. Qed.

(** X12. A line that is one of the words quit, exit and q, in any
    mix of upper and lower case, ends the session: the farewell is
    printed, nothing is sent to the backend, the history is untouched
    and the rest of the script is not read. *)
Theorem session_leaves_on_quit_word s rest st :
  forallb (fun c => (c <? 128)%N) s = true ->
  In (map ascii_lower s) [lit "quit"; lit "exit"; lit "q"] ->
  session (Return s :: rest) st
  = (Return Left,
     {| history := history st; host := host st;
        trace := trace st ++ [ConsolePrint goodbye_line] |}).
Proof.
  intros Ha Hq. rewrite session_cons.
  assert (E : is_quit s = true).
  { unfold is_quit. rewrite (lower_ascii _ Ha). now apply mem_In. }
  unfold round, handled. unfold bind at 1. unfold lift at 1. rewrite E.
  reflexivity.
Qed.

Lemma space_not_letter c :
  Py_UNICODE_ISSPACE c = true -> ascii_lower c <> 113%N /\ ascii_lower c <> 101%N.
Proof.
  intros H. unfold ascii_lower.
  destruct (in_range 65 90 c) eqn:E;
    unfold Py_UNICODE_ISSPACE, in_range in *; split; intros F; bool_lia.
Qed.

Lemma blank_is_no_quit_word s :
  forallb (fun c => (c <? 128)%N) s = true -> blank s = true -> is_quit s = false.
Proof.
  intros Ha Hb. destruct (is_quit s) eqn:E; [exfalso|reflexivity].
  unfold is_quit in E. rewrite (lower_ascii _ Ha) in E. apply mem_In in E.
  destruct s as [|c s]; [simpl in E; intuition discriminate|].
  unfold blank in Hb. simpl in Hb. apply andb_true_iff in Hb.
  destruct Hb as [Hc _]. destruct (space_not_letter c Hc) as [Hq He].
  simpl in E.
  destruct E as [E|[E|[E|[]]]]; injection E as E _; congruence.
Qed.

(** X13. An empty line, or a line of ASCII white space only, is
    passed over: it is never taken for a quit word, and the session
    goes on with the next input from the very same state, with nothing
    printed, stored or sent. *)
Theorem session_skips_blank_line s rest st :
  forallb (fun c => (c <? 128)%N) s = true ->
  blank s = true ->
  session (Return s :: rest) st = session rest st.
Proof.
  intros Ha Hb. rewrite session_cons.
  unfold round, handled. unfold bind at 1. unfold lift at 1.
  rewrite (blank_is_no_quit_word s Ha Hb), Hb. reflexivity.
Qed.

(** The turns [chat] appends, whatever its outcome: the user turn,
    then possibly the first reply, the turn of the results and the
    second reply. *)
Lemma chat_appends um st :
  let asked := {| role := user; content := um |} in
  exists block,
    history (snd (chat um st)) = history st ++ asked :: block /\
    ((block = []) \/
     (exists r, block = [{| role := assistant; content := r |}]) \/
     (exists r res, block = [{| role := assistant; content := r |};
                             {| role := user; content := res |}]) \/
     (exists r res r2, block = [{| role := assistant; content := r |};
                                {| role := user; content := res |};
                                {| role := assistant; content := r2 |}])).
Proof.
  intros asked. pose proof (chat_runs um st) as R.
  destruct R as [e m st0 E1|reply m st0 E1 En|reply1 m e st2 st0 E1 En Er
                |reply1 m res st2 e m' st0 st3 E1 En Er E2
                |reply1 m res st2 reply2 m' st0 st3 E1 En Er E2].
  - exists []. split; [reflexivity|now left].
  - eexists. split; [cbn; rewrite <- app_assoc; reflexivity|].
    right. left. eexists. reflexivity.
  - destruct (run_tools_frame (extract_tool_calls reply1) [] (after_request st0 m))
      as [Hh _]. rewrite Er in Hh. cbn [snd] in Hh.
    exists []. split; [exact Hh|now left].
  - destruct (run_tools_frame (extract_tool_calls reply1) [] (after_request st0 m))
      as [Hh _]. rewrite Er in Hh. cbn [snd] in Hh.
    eexists. split.
    + subst st3. cbn. rewrite Hh. cbn. rewrite <- !app_assoc. reflexivity.
    + right. right. left. do 2 eexists. reflexivity.
  - destruct (run_tools_frame (extract_tool_calls reply1) [] (after_request st0 m))
      as [Hh _]. rewrite Er in Hh. cbn [snd] in Hh.
    eexists. split.
    + subst st3. cbn. rewrite Hh. cbn. rewrite <- !app_assoc. reflexivity.
    + right. right. right. do 3 eexists. reflexivity.
Qed.



Lemma paired_app h : forall prev b,
  paired prev (h ++ b) = paired prev h && paired (last_role prev h) b.
Proof.
  induction h as [|t h IH]; intros prev b; [reflexivity|].
  cbn [app paired last_role]. destruct (role t).
  - reflexivity.
  - apply IH.
  - destruct prev; try reflexivity. apply IH.
Qed.

(** A round changes the history as [chat] does, or not at all. *)
Lemma round_history asked st :
  history (snd (round asked st)) = history st \/
  exists s, history (snd (round asked st)) = history (snd (chat s st)).
Proof.
  destruct asked as [s|e].
  - destruct (is_quit s) eqn:Eq.
    + left. unfold round, handled. unfold bind at 1. unfold lift at 1.
      rewrite Eq. reflexivity.
    + destruct (blank s) eqn:Eb.
      * left. unfold round, handled. unfold bind at 1. unfold lift at 1.
        rewrite Eq, Eb. reflexivity.
      * right. exists s. rewrite (round_chat s st Eq Eb).
        destruct (chat s st) as [[response|e] st1]; [reflexivity|].
        destruct (is_KeyboardInterrupt Sh e); [reflexivity|].
        destruct (is_Exception e); reflexivity.
  - left. unfold round, handled. unfold bind at 1. unfold lift at 1.
    destruct (is_KeyboardInterrupt Sh e); [reflexivity|].
    destruct (is_Exception e); reflexivity.
Qed.

Lemma chat_keeps_paired um st :
  paired system (history st) = true ->
  paired system (history (snd (chat um st))) = true.
Proof.
  intros H. destruct (chat_appends um st) as (block & Hh & Hb).
  rewrite Hh, paired_app, H. cbn [andb paired role].
  destruct Hb as [->|[(r & ->)|[(r & res & ->)|(r & res & r2 & ->)]]];
    reflexivity.
Qed.

(** X16. Through a whole session, whatever is typed and whatever
    fails, the history only grows, it never holds a system turn, and
    each assistant turn in it comes directly after a user turn. (Two
    user turns in a row do occur, after a request that failed.) *)
Theorem session_keeps_history_in_order script : forall st,
  let st' := snd (session script st) in
  (exists added, history st' = history st ++ added) /\
  (paired system (history st) = true -> paired system (history st') = true).
Proof.
  induction script as [|asked rest IH]; intros st; cbv zeta.
  - split; [exists []; cbn; now rewrite app_nil_r|auto].
  - rewrite session_cons.
    assert (Hr : (exists added, history (snd (round asked st)) = history st ++ added)
                 /\ (paired system (history st) = true ->
                     paired system (history (snd (round asked st))) = true)).
    { destruct (round_history asked st) as [E|(s & E)]; rewrite E.
      - split; [exists []; now rewrite app_nil_r|auto].
      - split; [|apply chat_keeps_paired].
        destruct (chat_appends s st) as (block & Hh & _). eauto. }
    destruct (round asked st) as [[[e|]|e] st1]; cbn [snd] in *;
      try exact Hr.
    destruct Hr as [(added & Ha) Hp]. destruct (IH st1) as [(added' & Ha') Hp'].
    split.
    + exists (added ++ added'). rewrite Ha', Ha. now rewrite app_assoc.
    + auto.
Qed.

(** ** The start of [main] *)

Lemma entry_names_missing entries :
  In None entries -> entry_names entries = Raise name_KeyError.
Proof.
  induction entries as [|[n|] entries IH]; intros H.
  - destruct H.
  - destruct H as [H|H]; [discriminate|]. cbn [entry_names]. now rewrite IH.
  - reflexivity.
Qed.

Lemma entry_names_raises entries e :
  entry_names entries = Raise e -> e = name_KeyError.
Proof.
  induction entries as [|[n|] entries IH]; cbn [entry_names].
  - discriminate.
  - destruct (entry_names entries); [discriminate|].
    intros H. injection H as <-. now apply IH.
  - intros H. now injection H as <-.
Qed.

(** The check of the model, case by case. *)
Lemma startup_eq st :
  startup st =
  match ollama_list Sh (host st) with
  | (Raise e, h) =>
      if is_Exception e then (Return false, shown [connect_error_line e; hint_line] h st)
      else (Raise e, shown [] h st)
  | (Return models, h) =>
      match entry_names (match models with Some l => l | None => [] end) with
      | Raise e =>
          (Return false, shown [connect_error_line name_KeyError; hint_line] h st)
      | Return names =>
          if needs_pull names then
            match ollama_pull Sh MODEL h with
            | (Return _, h2) =>
                (Return true, shown [pulling_line; first_run_line; ready_line] h2 st)
            | (Raise e, h2) =>
                if is_Exception e then
                  (Return false,
                   shown [pulling_line; first_run_line; connect_error_line e; hint_line]
                         h2 st)
                else (Raise e, shown [pulling_line; first_run_line] h2 st)
            end
          else (Return true, shown [] h st)
      end
  end.
Proof.
  unfold startup, try_except. unfold bind at 1. unfold on_host at 1.
  destruct (ollama_list Sh (host st)) as [[models|e] h].
  - unfold bind at 1. unfold lift at 1.
    destruct (entry_names _) as [names|e] eqn:En.
    + destruct (needs_pull names).
      * unfold bind, console_print, log, on_host, ret. cbn [history host trace].
        destruct (ollama_pull Sh MODEL h) as [[u|e] h2].
        -- unfold shown. cbn [map history host trace].
           rewrite <- !app_assoc. reflexivity.
        -- destruct (is_Exception e); unfold shown; cbn [map history host trace];
             rewrite <- ?app_assoc; reflexivity.
      * unfold ret, shown. cbn [map]. now rewrite app_nil_r.
    + apply entry_names_raises in En. subst e.
      change (is_Exception name_KeyError) with true. cbv iota.
      unfold bind, console_print, log, ret, shown. cbn [map history host trace].
      rewrite <- app_assoc. reflexivity.
  - destruct (is_Exception e).
    + unfold bind, console_print, log, ret, shown. cbn [map history host trace].
      rewrite <- app_assoc. reflexivity.
    + unfold shown. cbn [map]. now rewrite app_nil_r.
Qed.

Lemma main_eq script st :
  main script st =
  match startup (shown [banner] (host st) st) with
  | (Return true, st1) =>
      session script {| history := []; host := host st1; trace := trace st1 |}
  | (Return false, st1) => (Return Unavailable, st1)
  | (Raise e, st1) => (Raise e, st1)
  end.
Proof.
  unfold main. unfold bind at 1. rewrite console_print_eq.
  change {| history := history st; host := host st;
            trace := trace st ++ [ConsolePrint banner] |}
    with (shown [banner] (host st) st).
  unfold bind at 1.
  destruct (startup (shown [banner] (host st) st)) as [[[|]|e] st1]; reflexivity.
Qed.


(** X18. When the listing holds an entry without the key "name", the
    session does not start either: the key error is reported as a
    failure to connect, with the text of the missing key, however many
    models are installed. *)
Theorem main_entry_without_name script st entries h :
  ollama_list Sh (host st) = (Return (Some entries), h) ->
  In None entries ->
  main script st
  = (Return Unavailable,
     shown [banner;
            nl ++ lit "[red]" ++ [10060%N] ++ lit " Error connecting to Ollama: 'name'[/red]";
            hint_line] h st).
Proof.
  intros Hl Hin. rewrite main_eq, startup_eq. cbn [shown host].
  rewrite Hl, (entry_names_missing _ Hin). unfold shown.
  cbn [history host trace map]. rewrite <- app_assoc. reflexivity.
Qed.


End Bot.

(** * The scanner and its input *)

Section ScannerInput.

Variables ua1 ua2 : char -> bool.








End ScannerInput.

(** * Sorting as [list.sort] does *)

Section StableSort.

Variables (A K : Type) (lt : K -> K -> bool) (key : A -> K).

(** The keys are ordered as numbers are when none is a NaN. *)
Hypothesis lt_asym : forall a b, lt a b = true -> lt b a = false.
Hypothesis not_lt_trans :
  forall a b c, lt a b = false -> lt b c = false -> lt a c = false.

(** [x] may stand before [y] in a list sorted upwards, downwards. *)
Let up (x y : A) : Prop := lt (key y) (key x) = false.
Let down (x y : A) : Prop := lt (key x) (key y) = false.

Lemma insert_by_perm x l :
  Permutation (system_tools.insert_by lt key x l) (x :: l).
Proof.
  induction l as [|y l IH]; simpl; [reflexivity|].
  destruct (lt (key y) (key x)); [|reflexivity].
  rewrite IH. apply perm_swap.
Qed.

Lemma sort_by_perm l : Permutation (system_tools.sort_by lt key l) l.
Proof.
  induction l as [|x l IH]; simpl; [reflexivity|].
  rewrite insert_by_perm. now constructor.
Qed.

Lemma insert_by_sorted x l :
  StronglySorted up l -> StronglySorted up (system_tools.insert_by lt key x l).
Proof.
  induction 1 as [|y l Hs IH Hy]; simpl.
  - repeat constructor.
  - destruct (lt (key y) (key x)) eqn:E.
    + constructor; [exact IH|].
      rewrite Forall_forall in *. intros z Hz.
      apply (Permutation_in _ (insert_by_perm x l)) in Hz.
      destruct Hz as [<-|Hz]; [now apply lt_asym|now apply Hy].
    + constructor; [now constructor|].
      constructor; [exact E|].
      rewrite Forall_forall in *. intros z Hz.
      exact (not_lt_trans _ _ _ (Hy z Hz) E).
Qed.

Lemma sort_by_sorted l : StronglySorted up (system_tools.sort_by lt key l).
Proof.
  induction l as [|x l IH]; simpl; [constructor|now apply insert_by_sorted].
Qed.

Lemma StronglySorted_app (R : A -> A -> Prop) l1 l2 :
  StronglySorted R l1 -> StronglySorted R l2 ->
  (forall a b, In a l1 -> In b l2 -> R a b) ->
  StronglySorted R (l1 ++ l2).
Proof.
  induction 1 as [|x l1 Hs IH Hx]; intros H2 H; simpl; [exact H2|].
  constructor.
  - apply IH; [exact H2|]. intros a b Ha Hb. apply H; [now right|exact Hb].
  - apply Forall_app. split; [exact Hx|].
    apply Forall_forall. intros b Hb. apply H; [now left|exact Hb].
Qed.

Lemma StronglySorted_rev (R : A -> A -> Prop) l :
  StronglySorted R l -> StronglySorted (fun a b => R b a) (rev l).
Proof.
  induction 1 as [|x l Hs IH Hx]; simpl; [constructor|].
  apply StronglySorted_app; [exact IH|repeat constructor|].
  intros a b Ha [<-|[]]. apply in_rev in Ha.
  rewrite Forall_forall in Hx. now apply Hx.
Qed.

Lemma StronglySorted_split (R : A -> A -> Prop) l1 l2 :
  StronglySorted R (l1 ++ l2) ->
  StronglySorted R l1 /\ Forall (fun b => Forall (fun a => R a b) l1) l2.
Proof.
  induction l1 as [|x l1 IH]; simpl; intros H.
  - split; [constructor|]. apply Forall_forall. intros b _. constructor.
  - inversion H as [|? ? Hs Hx]; subst. destruct (IH Hs) as [H1 H2].
    apply Forall_app in Hx. destruct Hx as [Hx1 Hx2]. split.
    + now constructor.
    + rewrite Forall_forall in *. intros b Hb. constructor; [now apply Hx2|].
      now apply H2.
Qed.

Lemma sort_reverse_perm l : Permutation (system_tools.sort_reverse lt key l) l.
Proof.
  unfold system_tools.sort_reverse.
  rewrite <- Permutation_rev, sort_by_perm. symmetry. apply Permutation_rev.
Qed.

Lemma sort_reverse_sorted l :
  StronglySorted down (system_tools.sort_reverse lt key l).
Proof.
  unfold system_tools.sort_reverse.
  apply (StronglySorted_rev up). apply sort_by_sorted.
Qed.

(** The head of a list sorted downwards: its first [n] elements are
    sorted, and none of the others is greater than any of them. *)
Lemma top_of_sorted n l :
  let sorted := system_tools.sort_reverse lt key l in
  Permutation l (firstn n sorted ++ skipn n sorted) /\
  length (firstn n sorted) = Nat.min n (length l) /\
  StronglySorted down (firstn n sorted) /\
  Forall (fun b => Forall (fun a => down a b) (firstn n sorted)) (skipn n sorted).
Proof.
  intros sorted. split; [|split].
  - rewrite firstn_skipn. symmetry. apply sort_reverse_perm.
  - rewrite length_firstn. f_equal.
    apply Permutation_length. apply sort_reverse_perm.
  - apply StronglySorted_split. rewrite firstn_skipn. apply sort_reverse_sorted.
Qed.

End StableSort.

(** * The tool functions of system_tools.py *)

Section SystemTools.

Variable S : system_tools.System.

(** ** get_uptime *)

Lemma divmod_bounds (a b : Z) :
  (0 < b)%Z ->
  (a = b * fst (system_tools.divmod a b) + snd (system_tools.divmod a b)
   /\ 0 <= snd (system_tools.divmod a b) < b)%Z.
Proof.
  intros Hb. unfold system_tools.divmod. cbn [fst snd]. split.
  - apply Z.div_mod. lia.
  - now apply Z.mod_pos_bound.
Qed.

(** X20. [get_uptime] returns exactly when the boot time is read and
    converted and the clock is read after it; the uptime it reports is
    the clock reading minus that boot time as whole days, hours below
    24, minutes below 60 and seconds below 60, written in decimal; the
    three add up to the seconds of the difference, and its microseconds
    are dropped. *)
Theorem get_uptime_fields w v w' :
  (forall a b, (0 <= system_tools.seconds (system_tools.minus S a b) < 86400)%Z) ->
  system_tools.get_uptime S w = (system_tools.Got v, w')
  <-> exists t w1 boot now_ h m s,
        system_tools.boot_time S w = (system_tools.Got t, w1) /\
        system_tools.fromtimestamp S t = system_tools.Got boot /\
        system_tools.now S w1 = (system_tools.Got now_, w') /\
        let uptime := system_tools.minus S now_ boot in
        v = system_tools.VDict
              [(lit "boot_time",
                system_tools.VStr
                  (system_tools.strftime S boot (lit "%Y-%m-%d %H:%M:%S")));
               (lit "uptime",
                system_tools.VStr
                  (system_tools.dec (system_tools.days uptime) ++ lit "d "
                   ++ system_tools.dec h ++ lit "h "
                   ++ system_tools.dec m ++ lit "m "
                   ++ system_tools.dec s ++ lit "s"))] /\
        (0 <= h < 24 /\ 0 <= m < 60 /\ 0 <= s < 60 /\
         system_tools.seconds uptime = 3600 * h + 60 * m + s)%Z.
Proof.
  intros Hnorm. unfold system_tools.get_uptime. split.
  - destruct (system_tools.boot_time S w) as [[t|c e] w1] eqn:Eb; [|discriminate].
    destruct (system_tools.fromtimestamp S t) as [boot|c e] eqn:Ef; [|discriminate].
    destruct (system_tools.now S w1) as [[now_|c e] w2] eqn:En; [|discriminate].
    intros H. injection H as <- <-.
    set (u := system_tools.minus S now_ boot).
    pose proof (Hnorm now_ boot) as Hs. fold u in Hs.
    exists t, w1, boot, now_,
      (system_tools.seconds u / 3600)%Z,
      ((system_tools.seconds u mod 3600) / 60)%Z,
      ((system_tools.seconds u mod 3600) mod 60)%Z.
    split; [reflexivity|]. split; [exact Ef|]. split; [exact En|].
    cbv zeta. fold u. split; [reflexivity|].
    pose proof (Z.div_mod (system_tools.seconds u) 3600 ltac:(lia)) as E1.
    pose proof (Z.mod_pos_bound (system_tools.seconds u) 3600 ltac:(lia)) as B1.
    pose proof (Z.div_mod (system_tools.seconds u mod 3600) 60 ltac:(lia)) as E2.
    pose proof (Z.mod_pos_bound (system_tools.seconds u mod 3600) 60 ltac:(lia)) as B2.
    assert (0 <= system_tools.seconds u / 3600 < 24)%Z.
    { split; [apply Z.div_pos; lia|apply Z.div_lt_upper_bound; lia]. }
    assert (0 <= (system_tools.seconds u mod 3600) / 60 < 60)%Z.
    { split; [apply Z.div_pos; lia|apply Z.div_lt_upper_bound; lia]. }
    repeat split; lia.
  - intros (t & w1 & boot & now_ & h & m & s & Hb & Hf & Hn & Hv & Hh & Hm & Hs & Hu).
    rewrite Hb, Hf, Hn. cbv zeta in Hv, Hu.
    set (u := system_tools.minus S now_ boot) in *.
    assert (E1 : (h = system_tools.seconds u / 3600)%Z)
      by (apply (Z.div_unique _ 3600 h (60 * m + s)); lia).
    assert (E2 : (60 * m + s = system_tools.seconds u mod 3600)%Z)
      by (apply (Z.mod_unique _ 3600 h (60 * m + s)); lia).
    assert (E3 : (m = (system_tools.seconds u mod 3600) / 60)%Z)
      by (apply (Z.div_unique _ 60 m s); lia).
    assert (E4 : (s = (system_tools.seconds u mod 3600) mod 60)%Z)
      by (apply (Z.mod_unique _ 60 m s); lia).
    rewrite Hv. unfold system_tools.uptime_text, system_tools.divmod.
    rewrite <- E1, <- E3, <- E4. reflexivity.
Qed.

(** ** get_disk_info *)

Lemma disk_loop_scan todo : forall acc w l w',
  system_tools.disk_loop S todo acc w = (system_tools.Got l, w') <->
  exists entries, l = acc ++ entries /\ system_tools.disk_scan S todo w entries w'.
Proof.
  induction todo as [|p rest IH]; intros acc w l w'; cbn [system_tools.disk_loop].
  - split.
    + intros H. injection H as <- <-. exists []. split; [now rewrite app_nil_r|].
      constructor.
    + intros (entries & -> & Hs). inversion Hs; subst. now rewrite app_nil_r.
  - destruct (system_tools.disk_usage S (system_tools.mountpoint p) w)
      as [[u|c e] w1] eqn:E.
    + rewrite IH. split.
      * intros (entries & -> & Hs).
        exists (system_tools.partition_entry S p u :: entries).
        split; [now rewrite <- app_assoc|]. now apply system_tools.scan_read with w1.
      * intros (entries & -> & Hs). inversion Hs as [|? ? ? u' w1' es ? Hu Hr|? ? ? e' w1' es ? Hu Hr]; subst.
        -- rewrite E in Hu. injection Hu as <- <-.
           exists es. split; [now rewrite <- app_assoc|exact Hr].
        -- rewrite E in Hu. discriminate.
    + destruct c.
      * rewrite IH. split.
        -- intros (entries & -> & Hs). exists entries. split; [reflexivity|].
           now apply system_tools.scan_denied with e w1.
        -- intros (entries & -> & Hs). inversion Hs as [|? ? ? u' w1' es ? Hu Hr|? ? ? e' w1' es ? Hu Hr]; subst.
           ++ rewrite E in Hu. discriminate.
           ++ rewrite E in Hu. injection Hu as <- <-. eauto.
      * split; [discriminate|].
        intros (entries & _ & Hs). inversion Hs as [|? ? ? u' w1' es ? Hu Hr|? ? ? e' w1' es ? Hu Hr]; subst;
          rewrite E in Hu; discriminate.
      * split; [discriminate|].
        intros (entries & _ & Hs). inversion Hs as [|? ? ? u' w1' es ? Hu Hr|? ? ? e' w1' es ? Hu Hr]; subst;
          rewrite E in Hu; discriminate.
      * split; [discriminate|].
        intros (entries & _ & Hs). inversion Hs as [|? ? ? u' w1' es ? Hu Hr|? ? ? e' w1' es ? Hu Hr]; subst;
          rewrite E in Hu; discriminate.
Qed.

(** X21. [get_disk_info] returns exactly when the partitions can be
    listed and the reading of each usage succeeds or is denied; it then
    reports, in the order of the listing, the partitions whose usage
    was read, and passes over the denied ones in silence. *)
Theorem get_disk_info_reports w entries w' :
  system_tools.get_disk_info S w
  = (system_tools.Got (system_tools.VDict [(lit "partitions", system_tools.VList entries)]), w')
  <-> exists todo w0,
        system_tools.disk_partitions S w = (system_tools.Got todo, w0) /\
        system_tools.disk_scan S todo w0 entries w'.
Proof.
  unfold system_tools.get_disk_info.
  destruct (system_tools.disk_partitions S w) as [[todo|c e] w0].
  - split.
    + destruct (system_tools.disk_loop S todo [] w0) as [[l|c e] w1] eqn:E;
        [|discriminate].
      intros H. injection H as <- <-. apply disk_loop_scan in E.
      destruct E as (es & -> & Hs). eauto.
    + intros (todo' & w0' & H & Hs). injection H as <- <-.
      assert (E : system_tools.disk_loop S todo [] w0 = (system_tools.Got entries, w')).
      { apply disk_loop_scan. exists entries. split; [reflexivity|exact Hs]. }
      now rewrite E.
  - split; [discriminate|]. intros (todo & w0' & H & _). discriminate.
Qed.

Lemma disk_loop_fails todo : forall acc w c e w',
  system_tools.disk_loop S todo acc w = (system_tools.Failed c e, w') ->
  c <> system_tools.PermissionError /\
  exists p w0, In p todo /\
    system_tools.disk_usage S (system_tools.mountpoint p) w0
    = (system_tools.Failed c e, w').
Proof.
  induction todo as [|p rest IH]; intros acc w c e w'; cbn [system_tools.disk_loop];
    [discriminate|].
  destruct (system_tools.disk_usage S (system_tools.mountpoint p) w)
    as [[u|c0 e0] w1] eqn:E.
  - intros H. apply IH in H. destruct H as (Hc & q & w0 & Hq & Hu).
    split; [exact Hc|]. exists q, w0. split; [now right|exact Hu].
  - destruct c0.
    + intros H. apply IH in H. destruct H as (Hc & q & w0 & Hq & Hu).
      split; [exact Hc|]. exists q, w0. split; [now right|exact Hu].
    + intros H. injection H as <- <- <-. split; [discriminate|].
      exists p, w. split; [now left|exact E].
    + intros H. injection H as <- <- <-. split; [discriminate|].
      exists p, w. split; [now left|exact E].
    + intros H. injection H as <- <- <-. split; [discriminate|].
      exists p, w. split; [now left|exact E].
Qed.

(** X22. When [get_disk_info] fails, the listing of the partitions
    failed, or the reading of the usage of a listed partition failed
    with something other than a permission error: a denied partition
    never makes the tool fail. *)
Theorem get_disk_info_fails w c e w' :
  system_tools.get_disk_info S w = (system_tools.Failed c e, w') ->
  system_tools.disk_partitions S w = (system_tools.Failed c e, w') \/
  (c <> system_tools.PermissionError /\
   exists todo w0 p w1,
     system_tools.disk_partitions S w = (system_tools.Got todo, w0) /\
     In p todo /\
     system_tools.disk_usage S (system_tools.mountpoint p) w1
     = (system_tools.Failed c e, w')).
Proof.
  unfold system_tools.get_disk_info.
  destruct (system_tools.disk_partitions S w) as [[todo|c0 e0] w0].
  - destruct (system_tools.disk_loop S todo [] w0) as [[l|c1 e1] w1] eqn:E;
      [discriminate|].
    intros H. injection H as <- <- <-. right.
    apply disk_loop_fails in E. destruct E as (Hc & p & w2 & Hp & Hu).
    split; [exact Hc|]. exists todo, w0, p, w2. auto.
  - intros H. injection H as <- <- <-. now left.
Qed.

(** ** get_process_info *)

Lemma process_loop_readable todo : forall acc,
  existsb system_tools.fatal todo = false ->
  system_tools.process_loop S todo acc
  = system_tools.Got (acc ++ map (system_tools.row_of S) (system_tools.readable todo)).
Proof.
  induction todo as [|a todo IH]; intros acc H.
  - simpl. now rewrite app_nil_r.
  - simpl in H. apply orb_false_iff in H. destruct H as [Ha H].
    destruct a as [p|c e].
    + cbn [system_tools.process_loop system_tools.readable map].
      rewrite IH by exact H. now rewrite <- app_assoc.
    + destruct c; try discriminate Ha;
        cbn [system_tools.process_loop system_tools.readable]; now apply IH.
Qed.

Lemma process_loop_fatal pre c e post : forall acc,
  existsb system_tools.fatal pre = false ->
  system_tools.fatal (@system_tools.Failed (system_tools.pinfo (system_tools.float S)) c e)
  = true ->
  system_tools.process_loop S (pre ++ system_tools.Failed c e :: post) acc
  = system_tools.Failed c e.
Proof.
  induction pre as [|a pre IH]; intros acc H Hc.
  - destruct c; try discriminate Hc; reflexivity.
  - simpl in H. apply orb_false_iff in H. destruct H as [Ha H].
    destruct a as [p|c0 e0].
    + cbn [app system_tools.process_loop]. now apply IH.
    + destruct c0; try discriminate Ha; cbn [app system_tools.process_loop];
        now apply IH.
Qed.

(** X23. When every process can be read, has gone or denies access,
    [get_process_info] reports rows of the readable processes, as many
    as the limit allows; they are in descending order of memory, and no
    process left out has more memory than a reported one. *)
Theorem get_process_info_top limit w todo w1 :
  (forall a b, system_tools.py_lt S a b = true -> system_tools.py_lt S b a = false) ->
  (forall a b c, system_tools.py_lt S a b = false ->
                 system_tools.py_lt S b c = false ->
                 system_tools.py_lt S a c = false) ->
  (0 <= limit)%Z ->
  system_tools.process_iter S w = (system_tools.Got todo, w1) ->
  existsb system_tools.fatal todo = false ->
  exists top rest,
    system_tools.get_process_info S limit w
    = (system_tools.Got
         (system_tools.VDict
            [(lit "top_processes_by_memory",
              system_tools.VList (map system_tools.row_value top))]), w1) /\
    Permutation (map (system_tools.row_of S) (system_tools.readable todo))
                (top ++ rest) /\
    length top = Nat.min (Z.to_nat limit) (length (system_tools.readable todo)) /\
    StronglySorted
      (fun a b => system_tools.py_lt S (system_tools.row_memory a)
                                       (system_tools.row_memory b) = false) top /\
    Forall (fun b =>
              Forall (fun a => system_tools.py_lt S (system_tools.row_memory a)
                                                    (system_tools.row_memory b) = false)
                     top) rest.
Proof.
  intros Hasym Htrans Hlimit Hiter Hfatal.
  set (rows := map (system_tools.row_of S) (system_tools.readable todo)).
  set (sorted := system_tools.sort_reverse (system_tools.py_lt S)
                   system_tools.row_memory rows).
  exists (firstn (Z.to_nat limit) sorted), (skipn (Z.to_nat limit) sorted).
  destruct (top_of_sorted _ _ (system_tools.py_lt S) system_tools.row_memory
              Hasym Htrans (Z.to_nat limit) rows) as (Hp & Hl & Hs & Hf).
  fold sorted in Hp, Hl, Hs, Hf.
  split; [|split; [exact Hp|split; [|split; [exact Hs|exact Hf]]]].
  - unfold system_tools.get_process_info. rewrite Hiter.
    rewrite (process_loop_readable todo [] Hfatal). cbn [app]. fold rows. fold sorted.
    unfold system_tools.slice_to.
    destruct (limit <? 0)%Z eqn:E; [apply Z.ltb_lt in E; lia|]. reflexivity.
  - rewrite Hl. unfold rows. now rewrite length_map.
Qed.

(** X24. The first process whose reading fails with anything but
    "no such process" or "access denied" makes [get_process_info] fail
    with that exception, whatever was read before and whatever the
    limit. *)
Theorem get_process_info_aborts limit w pre c e post w1 :
  system_tools.process_iter S w
  = (system_tools.Got (pre ++ system_tools.Failed c e :: post), w1) ->
  existsb system_tools.fatal pre = false ->
  c = system_tools.PermissionError \/ c = system_tools.OtherError ->
  system_tools.get_process_info S limit w = (system_tools.Failed c e, w1).
Proof.
  intros Hiter Hpre Hc. unfold system_tools.get_process_info. rewrite Hiter.
  rewrite (process_loop_fatal pre c e post [] Hpre); [reflexivity|].
  destruct Hc as [-> | ->]; reflexivity.
Qed.

End SystemTools.

(** * Runs on the scripted platform *)

Lemma latin1_alnum_not_space :
  forall c, (128 <= c)%N -> latin1_alnum c = true -> Py_UNICODE_ISSPACE c = false.
Proof.
  intros c _ H. destruct (Py_UNICODE_ISSPACE c) eqn:E; [exfalso|reflexivity].
  unfold latin1_alnum, Py_UNICODE_ISSPACE, in_range in *. bool_lia.
Qed.

Lemma scanner_grammar_witness :
  (forall c, (128 <= c)%N -> latin1_alnum c = true -> Py_UNICODE_ISSPACE c = false) /\
  (In (lit "caf" ++ [233%N])
      (extract_tool_calls latin1_alnum (lit "Un [TOOL: caf" ++ [233%N] ++ lit "], merci"))
   <-> exists pre ws post,
         lit "Un [TOOL: caf" ++ [233%N] ++ lit "], merci"
         = pre ++ marker ws (lit "caf" ++ [233%N]) ++ post /\
         well_formed latin1_alnum ws (lit "caf" ++ [233%N])).
Proof.
  split; [exact latin1_alnum_not_space|].
  exact (proj1 (scanner_grammar latin1_alnum latin1_alnum_not_space)
               (lit "Un [TOOL: caf" ++ [233%N] ++ lit "], merci")
               (lit "caf" ++ [233%N])).
Defined.

Lemma scanner_order_and_duplicates_witness :
  well_formed latin1_alnum (lit " ") (lit "get_uptime") /\
  extract_tool_calls latin1_alnum
    (lit "a [TOOL: x] b " ++ marker (lit " ") (lit "get_uptime") ++ lit " c [TOOL:y]")
  = extract_tool_calls latin1_alnum (lit "a [TOOL: x] b ")
    ++ lit "get_uptime" :: extract_tool_calls latin1_alnum (lit " c [TOOL:y]").
Proof.
  assert (H : well_formed latin1_alnum (lit " ") (lit "get_uptime")).
  { split; [reflexivity|]. split; [discriminate|reflexivity]. }
  split; [exact H|].
  exact (proj2 (scanner_order_and_duplicates latin1_alnum latin1_alnum_not_space)
               (lit "a [TOOL: x] b ") (lit " ") (lit "get_uptime")
               (lit " c [TOOL:y]") H).
Defined.

Lemma no_marker_in_prose :
  ~ contains_marker latin1_alnum (lit "[TOOL: ] is [TOOL get_cpu_info?").
Proof.
  apply (extract_empty_no_marker latin1_alnum latin1_alnum_not_space).
  vm_compute. reflexivity.
Qed.

Lemma scanner_ignores_malformed_witness :
  ~ contains_marker latin1_alnum (lit "[TOOL: ] is [TOOL get_cpu_info?") /\
  extract_tool_calls latin1_alnum (lit "[TOOL: ] is [TOOL get_cpu_info?") = [].
Proof.
  split; [exact no_marker_in_prose|].
  exact (proj1 (scanner_ignores_malformed latin1_alnum latin1_alnum_not_space)
               (lit "[TOOL: ] is [TOOL get_cpu_info?") no_marker_in_prose).
Defined.

Lemma scanner_names_are_words_witness :
  Forall (fun name =>
            name <> [] /\
            Forall (fun c => is_word latin1_alnum c = true /\
                             is_space latin1_alnum c = false /\ ~ punct c) name)
         (extract_tool_calls latin1_alnum
            (lit "[TOOL:  get_disk_info] [TOOL:na" ++ [239%N] ++ lit "ve_2][TOOL: a b]")).
Proof.
  exact (scanner_names_are_words latin1_alnum latin1_alnum_not_space
           (lit "[TOOL:  get_disk_info] [TOOL:na" ++ [239%N] ++ lit "ve_2][TOOL: a b]")).
Defined.

Lemma execute_tool_contains_errors_witness :
  exists info,
    lookup (lit "get_memory_info") (TOOLS scripted) = Some info /\
    execute_tool scripted (lit "get_memory_info") fresh =
    (Return (lit "Error executing get_memory_info: sensor unavailable"),
     after_tool scripted (lit "get_memory_info") fresh 1).
Proof.
  eexists.
  assert (H : lookup (lit "get_memory_info") (TOOLS scripted)
              = Some {| function := get_memory_info scripted;
                        description := lit "Get RAM and swap memory usage" |})
    by reflexivity.
  split; [exact H|].
  exact (proj1 (execute_tool_contains_errors scripted (lit "get_memory_info") _ fresh H)
               io_error 1 eq_refl eq_refl).
Defined.

Lemma defrag_not_registered : ~ In (lit "defrag") (map fst (TOOLS scripted)).
Proof.
  vm_compute. intros H.
  repeat (destruct H as [H|H]; [discriminate H|]). exact H.
Qed.

Lemma execute_tool_unknown_witness :
  ~ In (lit "defrag") (map fst (TOOLS scripted)) /\
  execute_tool scripted (lit "defrag") fresh
  = (Return (lit "Unknown tool: defrag"), fresh).
Proof.
  split; [exact defrag_not_registered|].
  exact (execute_tool_unknown scripted (lit "defrag") fresh defrag_not_registered).
Defined.

Lemma no_marker_in_answer :
  ~ contains_marker latin1_alnum (lit "Your machine is fine.").
Proof.
  apply (extract_empty_no_marker latin1_alnum latin1_alnum_not_space).
  vm_compute. reflexivity.
Qed.

Lemma chat_without_tool_calls_witness :
  exists st',
    chat latin1_alnum scripted (lit "thanks") resumed
    = (Return (lit "Your machine is fine."), st') /\
    history st' =
      history resumed
      ++ [{| role := user; content := lit "thanks" |};
          {| role := assistant; content := lit "Your machine is fine." |}] /\
    length (backend_calls (trace st')) = 1.
Proof.
  assert (H1 : ollama_chat scripted MODEL
                 (system_turn scripted :: history resumed
                  ++ [{| role := user; content := lit "thanks" |}])
                 (host resumed)
               = (Return (lit "Your machine is fine."), 2)) by reflexivity.
  destruct (chat_without_tool_calls latin1_alnum latin1_alnum_not_space scripted
              (lit "thanks") resumed (lit "Your machine is fine.") 2
              H1 no_marker_in_answer) as (st' & Hc & Hh & _ & Hb).
  exists st'. split; [exact Hc|]. split; [exact Hh|].
  rewrite Hb. reflexivity.
Defined.

Lemma chat_with_tool_calls_witness :
  exists st',
    chat latin1_alnum scripted (lit "how is my cpu?") fresh
    = (Return (lit "Your machine is fine."), st') /\
    history st' =
      [{| role := user; content := lit "how is my cpu?" |};
       {| role := assistant;
          content := lit "Let me look. [TOOL: get_cpu_info] and [TOOL: get_memory_info], then [TOOL: defrag]" |};
       {| role := user;
          content :=
            lit "Here are the tool results:" ++ [10%N; 10%N]
            ++ lit "Results from get_cpu_info:" ++ [10%N] ++ lit "  1"
            ++ [10%N; 10%N]
            ++ lit "Results from get_memory_info:" ++ [10%N]
            ++ lit "Error executing get_memory_info: sensor unavailable"
            ++ [10%N; 10%N]
            ++ lit "Results from defrag:" ++ [10%N] ++ lit "Unknown tool: defrag"
            ++ [10%N; 10%N]
            ++ lit "Please explain these results to me in a friendly, easy-to-understand way." |};
       {| role := assistant; content := lit "Your machine is fine." |}] /\
    length (backend_calls (trace st')) = 2.
Proof.
  pose (um := lit "how is my cpu?").
  pose (reply1 := lit "Let me look. [TOOL: get_cpu_info] and [TOOL: get_memory_info], then [TOOL: defrag]").
  pose (msgs1 := system_turn scripted :: [{| role := user; content := um |}]).
  pose (st1 := @Build_state scripted [{| role := user; content := um |}] 1
                 [BackendCall MODEL msgs1]).
  pose (tool_results :=
          [result_block (lit "get_cpu_info") (lit "  1");
           result_block (lit "get_memory_info")
             (lit "Error executing get_memory_info: sensor unavailable");
           result_block (lit "defrag") (lit "Unknown tool: defrag")]).
  pose (st2 := snd (run_tools scripted (extract_tool_calls latin1_alnum reply1) [] st1)).
  assert (H1 : ollama_chat scripted MODEL msgs1 (host fresh) = (Return reply1, 1))
    by reflexivity.
  assert (H2 : contains_marker latin1_alnum reply1).
  { exists (lit "Let me look. "), (lit " "), (lit "get_cpu_info"),
           (lit " and [TOOL: get_memory_info], then [TOOL: defrag]").
    split; [reflexivity|]. split; [reflexivity|]. split; [discriminate|reflexivity]. }
  assert (H3 : run_tools scripted (extract_tool_calls latin1_alnum reply1) [] st1
               = (Return tool_results, st2)) by (vm_compute; reflexivity).
  assert (H4 : ollama_chat scripted MODEL
                 (system_turn scripted
                  :: history fresh
                  ++ [{| role := user; content := um |};
                      {| role := assistant; content := reply1 |};
                      {| role := user; content := results_message tool_results |}])
                 (host st2)
               = (Return (lit "Your machine is fine."), 4))
    by (vm_compute; reflexivity).
  destruct (chat_with_tool_calls latin1_alnum latin1_alnum_not_space scripted
              um fresh reply1 1 tool_results st2 (lit "Your machine is fine.") 4
              H1 H2 H3 H4) as (st' & Hc & Hh & Hb & _).
  exists st'. split; [exact Hc|]. split; [exact Hh|].
  rewrite Hb. reflexivity.
Defined.


(** * Runs of the further properties *)

Lemma markers_round_trip_witness :
  extract_tool_calls latin1_alnum
    (concat (map (marker [32%N; 9%N])
               [lit "get_uptime"; lit "x9"; lit "get_uptime"]))
  = [lit "get_uptime"; lit "x9"; lit "get_uptime"].
Proof.
  apply (markers_round_trip latin1_alnum latin1_alnum_not_space).
  - repeat (constructor; [split; [discriminate|reflexivity]|]). constructor.
  - reflexivity.
Defined.

Lemma registered_tools_are_requestable_witness :
  extract_tool_calls latin1_alnum (lit "[TOOL: " ++ lit "get_uptime" ++ lit "]")
  = [lit "get_uptime"].
Proof.
  assert (Hin : In (lit "get_uptime",
                    {| function := get_uptime scripted;
                       description := lit "Get system boot time and uptime duration" |})
                   (TOOLS scripted))
    by (do 7 right; left; reflexivity).
  exact (proj1 (proj2 (registered_tools_are_requestable
                         latin1_alnum latin1_alnum_not_space scripted _ _ Hin))).
Defined.

Lemma run_tools_effect_witness :
  exists st',
    run_tools scripted [lit "get_cpu_info"; lit "defrag"; lit "get_cpu_info"] [] fresh
    = (Return [lit "Results from get_cpu_info:" ++ [10%N] ++ lit "  ";
               lit "Results from defrag:" ++ [10%N] ++ lit "Unknown tool: defrag";
               lit "Results from get_cpu_info:" ++ [10%N] ++ lit "  1"], st') /\
    trace st' =
      [ConsolePrint (running_line (lit "get_cpu_info")); ToolCall (lit "get_cpu_info");
       ConsolePrint (running_line (lit "defrag"));
       ConsolePrint (running_line (lit "get_cpu_info")); ToolCall (lit "get_cpu_info")] /\
    history st' = [].
Proof.
  pose (names := [lit "get_cpu_info"; lit "defrag"; lit "get_cpu_info"]).
  pose (results := [lit "Results from get_cpu_info:" ++ [10%N] ++ lit "  ";
                    lit "Results from defrag:" ++ [10%N] ++ lit "Unknown tool: defrag";
                    lit "Results from get_cpu_info:" ++ [10%N] ++ lit "  1"]).
  pose (st' := snd (run_tools scripted names [] fresh)).
  assert (H : run_tools scripted names [] fresh = (Return results, st'))
    by (vm_compute; reflexivity).
  exists st'. split; [exact H|].
  destruct (run_tools_effect scripted names [] fresh results st' H) as (Ht & _ & Hh & _).
  split; [rewrite Ht; reflexivity|exact Hh].
Defined.

Lemma chat_first_request_fails_witness :
  exists st',
    chat latin1_alnum troubled (lit "hi") (troubled_at 0) = (Raise io_error, st') /\
    history st' = [{| role := user; content := lit "hi" |}] /\
    length (trace st') = 1.
Proof.
  destruct (chat_first_request_fails latin1_alnum troubled (lit "hi") (troubled_at 0)
              io_error 1 eq_refl) as (st' & Hc & Hh & Ht).
  exists st'. split; [exact Hc|]. split; [exact Hh|].
  rewrite Ht. reflexivity.
Defined.

Lemma chat_tool_interrupted_witness :
  exists st2,
    chat latin1_alnum troubled (lit "battery?") (troubled_at 1)
    = (Raise keyboard_interrupt, st2) /\
    history st2 = [{| role := user; content := lit "battery?" |}] /\
    length (backend_calls (trace st2)) = 1.
Proof.
  pose (um := lit "battery?").
  pose (reply1 := lit "One moment. [TOOL: get_battery_info]").
  pose (msgs1 := system_turn troubled :: [{| role := user; content := um |}]).
  pose (st1 := @Build_state troubled [{| role := user; content := um |}] 2
                 [BackendCall MODEL msgs1]).
  pose (st2 := snd (run_tools troubled (extract_tool_calls latin1_alnum reply1) [] st1)).
  assert (H1 : ollama_chat troubled MODEL msgs1 (host (troubled_at 1))
               = (Return reply1, 2)) by reflexivity.
  assert (H2 : run_tools troubled (extract_tool_calls latin1_alnum reply1) [] st1
               = (Raise keyboard_interrupt, st2)) by (vm_compute; reflexivity).
  destruct (chat_tool_interrupted latin1_alnum troubled um (troubled_at 1)
              reply1 2 keyboard_interrupt st2 H1 H2) as (Hc & _ & Hh & Hb).
  exists st2. split; [exact Hc|]. split; [exact Hh|].
  rewrite Hb. reflexivity.
Defined.

Lemma chat_second_request_fails_witness :
  exists st',
    chat latin1_alnum troubled (lit "cpu?") (troubled_at 2) = (Raise io_error, st') /\
    history st' =
      [{| role := user; content := lit "cpu?" |};
       {| role := assistant; content := lit "One moment. [TOOL: get_cpu_info]" |};
       {| role := user;
          content := results_message [result_block (lit "get_cpu_info") (lit "  111")] |}] /\
    length (backend_calls (trace st')) = 2.
Proof.
  pose (um := lit "cpu?").
  pose (reply1 := lit "One moment. [TOOL: get_cpu_info]").
  pose (msgs1 := system_turn troubled :: [{| role := user; content := um |}]).
  pose (st1 := @Build_state troubled [{| role := user; content := um |}] 3
                 [BackendCall MODEL msgs1]).
  pose (tool_results := [result_block (lit "get_cpu_info") (lit "  111")]).
  pose (st2 := snd (run_tools troubled (extract_tool_calls latin1_alnum reply1) [] st1)).
  assert (H1 : ollama_chat troubled MODEL msgs1 (host (troubled_at 2))
               = (Return reply1, 3)) by reflexivity.
  assert (H2 : extract_tool_calls latin1_alnum reply1 <> [])
    by (vm_compute; discriminate).
  assert (H3 : run_tools troubled (extract_tool_calls latin1_alnum reply1) [] st1
               = (Return tool_results, st2)) by (vm_compute; reflexivity).
  assert (H4 : ollama_chat troubled MODEL
                 (system_turn troubled
                  :: history (troubled_at 2)
                  ++ [{| role := user; content := um |};
                      {| role := assistant; content := reply1 |};
                      {| role := user; content := results_message tool_results |}])
                 (host st2)
               = (Raise io_error, 5)) by (vm_compute; reflexivity).
  destruct (chat_second_request_fails latin1_alnum troubled um (troubled_at 2)
              reply1 3 tool_results st2 io_error 5 H1 H2 H3 H4)
    as (st' & Hc & Hh & Hb).
  exists st'. split; [exact Hc|]. split; [exact Hh|].
  rewrite Hb. reflexivity.
Defined.


Lemma chat_order_of_effects_witness :
  exists msgs1 msgs2,
    trace (snd (chat latin1_alnum scripted (lit "how is my cpu?") fresh)) =
    [BackendCall MODEL msgs1;
     ConsolePrint (running_line (lit "get_cpu_info")); ToolCall (lit "get_cpu_info");
     ConsolePrint (running_line (lit "get_memory_info")); ToolCall (lit "get_memory_info");
     ConsolePrint (running_line (lit "defrag"));
     BackendCall MODEL msgs2].
Proof.
  pose (um := lit "how is my cpu?").
  pose (reply1 := lit "Let me look. [TOOL: get_cpu_info] and [TOOL: get_memory_info], then [TOOL: defrag]").
  pose (msgs1 := system_turn scripted :: [{| role := user; content := um |}]).
  pose (st1 := @Build_state scripted [{| role := user; content := um |}] 1
                 [BackendCall MODEL msgs1]).
  pose (tool_results :=
          [result_block (lit "get_cpu_info") (lit "  1");
           result_block (lit "get_memory_info")
             (lit "Error executing get_memory_info: sensor unavailable");
           result_block (lit "defrag") (lit "Unknown tool: defrag")]).
  pose (msgs2 := system_turn scripted
                 :: [{| role := user; content := um |};
                     {| role := assistant; content := reply1 |};
                     {| role := user; content := results_message tool_results |}]).
  pose (st2 := snd (run_tools scripted (extract_tool_calls latin1_alnum reply1) [] st1)).
  assert (H1 : ollama_chat scripted MODEL msgs1 (host fresh) = (Return reply1, 1))
    by reflexivity.
  assert (H2 : extract_tool_calls latin1_alnum reply1 <> [])
    by (vm_compute; discriminate).
  assert (H3 : run_tools scripted (extract_tool_calls latin1_alnum reply1) [] st1
               = (Return tool_results, st2)) by (vm_compute; reflexivity).
  assert (H4 : ollama_chat scripted MODEL msgs2 (host st2)
               = (Return (lit "Your machine is fine."), 4))
    by (vm_compute; reflexivity).
  pose proof (chat_order_of_effects latin1_alnum scripted um fresh reply1 1
                tool_results st2 (lit "Your machine is fine.") 4 H1 H2 H3 H4) as Ht.
  assert (E : tool_events scripted (extract_tool_calls latin1_alnum reply1)
              = [ConsolePrint (running_line (lit "get_cpu_info"));
                 ToolCall (lit "get_cpu_info");
                 ConsolePrint (running_line (lit "get_memory_info"));
                 ToolCall (lit "get_memory_info");
                 ConsolePrint (running_line (lit "defrag"))])
    by (vm_compute; reflexivity).
  rewrite E in Ht. exists msgs1, msgs2. exact Ht.
Defined.

Lemma session_leaves_on_quit_word_witness :
  session latin1_alnum scripted scripted_shell
    [Return (lit "QuIt"); Return (lit "how is my cpu?")] fresh
  = (Return Left, @Build_state scripted [] 0 [ConsolePrint goodbye_line]).
Proof.
  exact (session_leaves_on_quit_word latin1_alnum scripted scripted_shell
           (lit "QuIt") [Return (lit "how is my cpu?")] fresh
           eq_refl (or_introl eq_refl)).
Defined.

Lemma session_skips_blank_line_witness :
  session latin1_alnum scripted scripted_shell
    [Return [32%N; 9%N; 32%N]; Return (lit "exit")] fresh
  = session latin1_alnum scripted scripted_shell [Return (lit "exit")] fresh.
Proof.
  exact (session_skips_blank_line latin1_alnum scripted scripted_shell
           [32%N; 9%N; 32%N] [Return (lit "exit")] fresh eq_refl eq_refl).
Defined.




Lemma main_entry_without_name_witness :
  main latin1_alnum scripted nameless_shell [Return (lit "hi")] fresh
  = (Return Unavailable,
     @Build_state scripted [] 0
       (map ConsolePrint
          [banner;
           nl ++ lit "[red]" ++ [10060%N]
           ++ lit " Error connecting to Ollama: 'name'[/red]";
           hint_line])).
Proof.
  exact (main_entry_without_name latin1_alnum scripted nameless_shell
           [Return (lit "hi")] fresh [Some (lit "mistral:7b"); None] 0
           eq_refl (or_intror (or_introl eq_refl))).
Defined.


Lemma toy_seconds_in_day a b :
  (0 <= system_tools.seconds (system_tools.minus toy_system a b) < 86400)%Z.
Proof. cbn. apply Z.mod_pos_bound. lia. Qed.

Lemma get_uptime_fields_witness :
  exists t w1 boot now_ h m s,
    system_tools.boot_time toy_system 0 = (system_tools.Got t, w1) /\
    system_tools.fromtimestamp toy_system t = system_tools.Got boot /\
    system_tools.now toy_system w1 = (system_tools.Got now_, 1) /\
    (system_tools.VDict
       [(lit "boot_time", system_tools.VStr (lit "1000"));
        (lit "uptime", system_tools.VStr (lit "1d 2h 3m 4s"))]
     : system_tools.value Z)
    = system_tools.VDict
        [(lit "boot_time",
          system_tools.VStr
            (system_tools.strftime toy_system boot (lit "%Y-%m-%d %H:%M:%S")));
         (lit "uptime",
          system_tools.VStr
            (system_tools.dec
               (system_tools.days (system_tools.minus toy_system now_ boot))
             ++ lit "d " ++ system_tools.dec h ++ lit "h "
             ++ system_tools.dec m ++ lit "m "
             ++ system_tools.dec s ++ lit "s"))] /\
    (0 <= h < 24 /\ 0 <= m < 60 /\ 0 <= s < 60 /\
     system_tools.seconds (system_tools.minus toy_system now_ boot)
     = 3600 * h + 60 * m + s)%Z.
Proof.
  assert (H : system_tools.get_uptime toy_system 0
              = (system_tools.Got
                   (system_tools.VDict
                      [(lit "boot_time", system_tools.VStr (lit "1000"));
                       (lit "uptime", system_tools.VStr (lit "1d 2h 3m 4s"))]), 1))
    by (vm_compute; reflexivity).
  exact (proj1 (get_uptime_fields toy_system 0 _ 1 toy_seconds_in_day) H).
Defined.

Lemma get_disk_info_fails_witness :
  system_tools.disk_partitions toy_system 1
  = (system_tools.Failed system_tools.OtherError io_error, 1) \/
  (system_tools.OtherError <> system_tools.PermissionError /\
   exists todo w0 p w1,
     system_tools.disk_partitions toy_system 1 = (system_tools.Got todo, w0) /\
     In p todo /\
     system_tools.disk_usage toy_system (system_tools.mountpoint p) w1
     = (system_tools.Failed system_tools.OtherError io_error, 1)).
Proof.
  assert (H : system_tools.get_disk_info toy_system 1
              = (system_tools.Failed system_tools.OtherError io_error, 1))
    by (vm_compute; reflexivity).
  exact (get_disk_info_fails toy_system 1 system_tools.OtherError io_error 1 H).
Defined.

Lemma toy_lt_asym a b :
  system_tools.py_lt toy_system a b = true ->
  system_tools.py_lt toy_system b a = false.
Proof. cbn. intros H. apply Z.ltb_lt in H. apply Z.ltb_ge. lia. Qed.

Lemma toy_not_lt_trans a b c :
  system_tools.py_lt toy_system a b = false ->
  system_tools.py_lt toy_system b c = false ->
  system_tools.py_lt toy_system a c = false.
Proof.
  cbn. intros H1 H2. apply Z.ltb_ge in H1, H2. apply Z.ltb_ge. lia.
Qed.

Lemma get_process_info_top_witness :
  exists top rest,
    system_tools.get_process_info toy_system 2 0
    = (system_tools.Got
         (system_tools.VDict
            [(lit "top_processes_by_memory",
              system_tools.VList (map system_tools.row_value top))]), 0) /\
    Permutation
      (map (system_tools.row_of toy_system)
         (system_tools.readable
            [system_tools.Got (toy_process 1 250);
             system_tools.Failed system_tools.AccessDenied io_error;
             system_tools.Got (toy_process 2 0);
             system_tools.Got (toy_process 3 1275);
             system_tools.Failed system_tools.NoSuchProcess io_error;
             system_tools.Got (toy_process 4 250)]))
      (top ++ rest) /\
    length top = 2 /\
    StronglySorted
      (fun a b => system_tools.py_lt toy_system (system_tools.row_memory a)
                                                (system_tools.row_memory b) = false) top /\
    Forall (fun b =>
              Forall (fun a => system_tools.py_lt toy_system (system_tools.row_memory a)
                                                             (system_tools.row_memory b) = false)
                     top) rest.
Proof.
  assert (Hl : (0 <= 2)%Z) by lia.
  exact (get_process_info_top toy_system 2 0 _ 0
           toy_lt_asym toy_not_lt_trans Hl eq_refl eq_refl).
Defined.

Lemma get_process_info_aborts_witness :
  system_tools.get_process_info toy_system 10 1
  = (system_tools.Failed system_tools.OtherError io_error, 1).
Proof.
  exact (get_process_info_aborts toy_system 10 1
           [system_tools.Got (toy_process 1 250)]
           system_tools.OtherError io_error
           [system_tools.Got (toy_process 2 0)] 1
           eq_refl eq_refl (or_intror eq_refl)).
Defined.
